(** * HashVault route handlers: a shallow embedding

    Two Next.js route handlers are embedded here:

    - [UploadRoute]: [src/app/api/upload/route.ts], the metadata service
      ([POST], [GET], [DELETE]) with its module-level list cache
      [fileListCache] and the memoised connection [dbConnectionPromise];
    - [WebhashProxy]: the upload proxy ([POST]) that forwards a multipart
      form to the WebHash API.

    Handlers are functions from the module state (and, for the metadata
    service, the database content) to a response, the next state and the
    list of external calls made.  What the outside world answers (whether
    the database connects, whether an operation throws, what the clock
    reads, what the external API returns) is an explicit argument of each
    handler, so every path of the source can be exercised.  In [serve]
    one request runs from start to end before the next one starts;
    [UploadSteps] lets a list wait at its database query while other
    requests run.

    JavaScript values are modelled as follows.  A string is a [string]
    whose characters are code units below 256.  A Number that holds an
    integer is a [Z]; [NaN] is [None].  This is exact for the safe
    integers ([MIN_SAFE_INTEGER] to [MAX_SAFE_INTEGER]); outside that
    range a Number is a rounded double, which is not modelled. *)

From Stdlib Require Import ZArith Lia Ascii String.
From stdpp Require Import base option list strings gmap.

Local Open Scope string_scope.
Local Open Scope list_scope.
Local Open Scope Z_scope.

(** ** JavaScript built-ins used by the handlers *)

Module JS.

Definition MAX_SAFE_INTEGER : Z := 2 ^ 53 - 1.
Definition MIN_SAFE_INTEGER : Z := - (2 ^ 53 - 1).

Definition isSafeInteger (n : Z) : Prop :=
  MIN_SAFE_INTEGER <= n <= MAX_SAFE_INTEGER.

Definition codeUnit (c : ascii) : Z := Z.of_N (Ascii.N_of_ascii c).

(** [WhiteSpace] and [LineTerminator] code units below 256:
    TAB, LF, VT, FF, CR, SP and NBSP. *)
Definition isStrWhiteSpaceChar (c : ascii) : bool :=
  let u := codeUnit c in
  ((9 <=? u) && (u <=? 13)) || (u =? 32) || (u =? 160).

(** [TrimString(s, start)]. *)
Fixpoint trimStart (s : string) : string :=
  match s with
  | String c rest => if isStrWhiteSpaceChar c then trimStart rest else s
  | EmptyString => EmptyString
  end.

Definition digitValue (c : ascii) : option Z :=
  let u := codeUnit c in
  if (48 <=? u) && (u <=? 57) then Some (u - 48) else None.

(** Value of the longest prefix of radix-10 digits; [acc] is the value
    of the digits read so far, [None] when no digit has been read. *)
Fixpoint digitsPrefix (s : string) (acc : option Z) : option Z :=
  match s with
  | String c rest =>
      match digitValue c with
      | Some d => digitsPrefix rest (Some (10 * default 0 acc + d))
      | None => acc
      end
  | EmptyString => acc
  end.

(** [parseInt(s, 10)]: leading white space is skipped, one sign is
    accepted, then the longest run of digits is read; [NaN] ([None])
    when that run is empty.  Whatever follows the digits is ignored. *)
Definition parseInt (s : string) : option Z :=
  let t := trimStart s in
  let '(sign, body) :=
    match t with
    | String "-" rest => (-1, rest)
    | String "+" rest => (1, rest)
    | _ => (1, t)
    end in
  match digitsPrefix body None with
  | Some mathInt => Some (sign * mathInt)
  | None => None
  end.

(** [x || 0] for the result of [parseInt]: [NaN] and [0] are falsy. *)
Definition orZero (x : option Z) : Z := default 0 x.

(** A string is falsy exactly when it is empty; [undefined] and [null]
    ([None]) are falsy. *)
Definition truthy (x : option string) : bool :=
  match x with
  | None | Some EmptyString => false
  | Some (String _ _) => true
  end.

Definition digitChar (d : Z) : ascii := ascii_of_N (Z.to_N (48 + d)).

(** The decimal digits of [n >= 0] put in front of [acc], the last digit
    first; at most [fuel] digits are produced. *)
Fixpoint decimalDigits (fuel : nat) (n : Z) (acc : string) : string :=
  match fuel with
  | O => acc
  | S fuel' =>
      let acc' := String (digitChar (n mod 10)) acc in
      if n <? 10 then acc' else decimalDigits fuel' (n / 10) acc'
  end.

(** A number of decimal digits that [n >= 0] does not exceed: the number
    of its binary digits. *)
Definition digitsBound (n : Z) : nat := S (Z.to_nat (Z.log2 n)).

(** [Number::toString] on an integer, as a template literal prints it. *)
Definition numberToString (n : Z) : string :=
  if n <? 0 then String "-" (decimalDigits (digitsBound (- n)) (- n) "")
  else decimalDigits (digitsBound n) n "".

Fixpoint zeros (k : nat) : string :=
  match k with O => EmptyString | S k' => String "0" (zeros k') end.

(** The integer [m] for which [m / 100 - num / den] is closest to zero,
    the larger one of two ([num >= 0], [den > 0]). *)
Definition nearestHundredths (num den : Z) : Z :=
  (200 * num + den) / (2 * den).

(** [(num / den).toFixed(2)], the quotient taken exactly.  The digits of
    the nearest number of hundredths are padded to three and the point
    is put before the last two.  (For quotients of 10^21 or more
    JavaScript prints with an exponent; no safe integer gets there.) *)
Definition toFixed2 (num den : Z) : string :=
  let '(sgn, x) := if num <? 0 then ("-", - num) else ("", num) in
  let digits := numberToString (nearestHundredths x den) in
  let k := String.length digits in
  let m := zeros (3 - k) +:+ digits in
  let k' := String.length m in
  sgn +:+ substring 0 (k' - 2) m +:+ "." +:+ substring (k' - 2) 2 m.

End JS.

(** ** What the world outside a handler can answer *)

(** A thrown value as the catch clauses see it: an [Error] with its
    message and stack, or anything else, of which only [String(error)]
    is used. *)
Inductive Thrown :=
| ErrorObject (message stack : string)
| OtherValue (text : string).

(** The outcome of an awaited call. *)
Inductive Outcome (A : Type) :=
| Returns (a : A)
| Throws (e : Thrown).
Arguments Returns {A} a.
Arguments Throws {A} e.

(** ** The metadata service, [src/app/api/upload/route.ts] *)

Module UploadRoute.

Definition maxDuration : Z := 10.
Definition revalidate : Z := 30.
Definition CACHE_TTL : Z := 30 * 1000.

(** *** Data *)

(** Modelled from the spec: the schema [@/models/File] is not among the
    sources.  A FileRecord has the five fields a create passes, and
    [createdAt] and [updatedAt]; [GET] falls back from [updatedAt] to
    [createdAt], so the former may be absent.  [_id] is the ObjectId in
    its string form, the dates are milliseconds.  The data model names
    the pair of content identifier and wallet address as what makes a
    record unique; the handlers never check for an existing record, so
    a property that needs it says so ([uniqueKeys]). *)
Record FileDoc := {
  _id : string;
  fileName : string;
  cid : string;
  size : string;
  mimeType : string;
  walletAddress : string;
  createdAt : Z;
  updatedAt : option Z
}.

(** An element of the list [GET] returns:
    [{ ...file, _id: file._id.toString(), lastUpdate, formattedSize }]. *)
Record ListedFile := {
  spread : FileDoc;
  idString : string;
  lastUpdate : Z;
  formattedSize : string
}.

(** A value of [fileListCache]. *)
Record CacheEntry := {
  data : list ListedFile;
  timestamp : Z
}.

(** The module state and the database.  [fileListCache] is the [Map] of
    line 14; [dbConnectionPromise] is [true] when the variable of line 18
    holds a resolved promise and [false] when it is [null].  [files] is
    the [File] collection in natural order.

    Modelled from the spec: the schema [@/models/User] is not among the
    sources.  A UserStorageAccount has [walletAddress] as its unique key
    and the integer [totalStorageUsed]; [users] maps the former to the
    latter, for the accounts that exist. *)
Record World := {
  files : list FileDoc;
  users : gmap string Z;
  fileListCache : gmap string CacheEntry;
  dbConnectionPromise : bool
}.

Definition setFiles (fs : list FileDoc) (w : World) : World :=
  {| files := fs; users := users w;
     fileListCache := fileListCache w;
     dbConnectionPromise := dbConnectionPromise w |}.

Definition setUsers (us : gmap string Z) (w : World) : World :=
  {| files := files w; users := us;
     fileListCache := fileListCache w;
     dbConnectionPromise := dbConnectionPromise w |}.

Definition setCache (c : gmap string CacheEntry) (w : World) : World :=
  {| files := files w; users := users w;
     fileListCache := c;
     dbConnectionPromise := dbConnectionPromise w |}.

Definition setPromise (p : bool) (w : World) : World :=
  {| files := files w; users := users w;
     fileListCache := fileListCache w;
     dbConnectionPromise := p |}.

(** The calls a handler makes to the database, in order. *)
Inductive Call :=
| ConnectToDatabase
| FileCreate (name c sz mime wallet : string)
| UserUpsertInc (wallet : string) (amount : Z)
| FileFind (wallet : string)
| FileFindOne (c wallet : string)
| FileDeleteOne (c wallet : string)
| UserInc (wallet : string) (amount : Z).

(** The JSON bodies the three handlers answer with. *)
Inductive Body :=
| ErrorBody (error : string)
| UploadFailure (error details : string) (at_ : Z)
| ListFailure (error message : string) (at_ : Z)
| CreatedBody (file : FileDoc)
| ListBody (listed : list ListedFile)
| SuccessBody.

Record Response := {
  status : Z;
  body : Body
}.

(** [NextResponse.json(body, { status })]; the status defaults to 200. *)
Definition json (b : Body) (st : Z) : Response :=
  {| status := st; body := b |}.

Record Result := {
  response : Response;
  world : World;
  calls : list Call
}.

Definition cacheKeyOf (wallet : string) : string := "files:" +:+ wallet.

(** *** The database operations the handlers use

    The Mongoose calls of the handlers, on the collections above.  Each
    is what the call does when it resolves; a call that throws leaves the
    database as it was. *)

Definition matches (c wallet : string) (f : FileDoc) : bool :=
  bool_decide (cid f = c) && bool_decide (walletAddress f = wallet).

(** [FileModel.create]. *)
Definition create (doc : FileDoc) (fs : list FileDoc) : list FileDoc :=
  fs ++ [doc].

(** [User.findOneAndUpdate] with [$inc], [$setOnInsert] and [upsert]. *)
Definition upsertInc (wallet : string) (n : Z) (us : gmap string Z)
  : gmap string Z :=
  <[wallet := default 0 (us !! wallet) + n]> us.

(** [User.findOneAndUpdate] with [$inc] and no upsert. *)
Definition inc (wallet : string) (n : Z) (us : gmap string Z)
  : gmap string Z :=
  alter (fun total => total + n) wallet us.

Fixpoint insertByCreatedAtDesc (f : FileDoc) (fs : list FileDoc)
  : list FileDoc :=
  match fs with
  | [] => [f]
  | g :: rest =>
      if createdAt f <? createdAt g
      then g :: insertByCreatedAtDesc f rest
      else f :: fs
  end.

(** [FileModel.find({ walletAddress }).sort({ createdAt: -1 })];
    documents of equal date keep their natural order. *)
Definition find (wallet : string) (fs : list FileDoc) : list FileDoc :=
  foldr insertByCreatedAtDesc []
    (filter (fun f => walletAddress f = wallet) fs).

(** [FileModel.findOne({ cid, walletAddress })]. *)
Fixpoint findOne (c wallet : string) (fs : list FileDoc)
  : option FileDoc :=
  match fs with
  | [] => None
  | f :: rest => if matches c wallet f then Some f else findOne c wallet rest
  end.

(** [FileModel.deleteOne({ cid, walletAddress })]. *)
Fixpoint deleteOne (c wallet : string) (fs : list FileDoc)
  : list FileDoc :=
  match fs with
  | [] => []
  | f :: rest =>
      if matches c wallet f then rest else f :: deleteOne c wallet rest
  end.

(** *** [ensureDbConnection] *)

(** [connect] is what [connectToDatabase()] does if it is called. *)
Definition ensureDbConnection (connect : Outcome unit) (w : World)
  : bool * World * list Call :=
  if dbConnectionPromise w then (true, w, [])
  else
    match connect with
    | Returns _ => (true, setPromise true w, [ConnectToDatabase])
    | Throws _ => (false, setPromise false w, [ConnectToDatabase])
    end.

(** *** [POST]: create *)

(** The five fields [POST] takes from the parsed request body, as
    strings; [None] is a field that is absent or [null].  (A number sent
    for [size] goes through [parseInt] as its decimal text, but the
    number 0 is falsy where the text is not.) *)
Record UploadData := {
  reqFileName : option string;
  reqCid : option string;
  reqSize : option string;
  reqMimeType : option string;
  reqWalletAddress : option string
}.

(** What the outside answers during one [POST]: the parsed body, the
    connection attempt, [FileModel.create] (the new document's [_id],
    [createdAt] and [updatedAt], or a throw), [User.findOneAndUpdate]
    (a document: [true], [null]: [false], or a throw) and the clock read
    in the catch clause. *)
Record PostAnswers := {
  postJson : Outcome UploadData;
  postConnect : Outcome unit;
  postCreate : Outcome (string * Z * option Z);
  postUpsert : Outcome bool;
  postClock : Z
}.

Definition answer (r : Response) (w : World) (cs : list Call) : Result :=
  {| response := r; world := w; calls := cs |}.

(** The catch clause of [POST]. *)
Definition postCaught (e : Thrown) (clock : Z) : Response :=
  match e with
  | ErrorObject message stack => json (UploadFailure message stack clock) 500
  | OtherValue text => json (UploadFailure "Unknown error occurred" text clock) 500
  end.

Definition POST (o : PostAnswers) (w : World) : Result :=
  match postJson o with
  | Throws e => answer (postCaught e (postClock o)) w []
  | Returns req =>
    if negb (JS.truthy (reqWalletAddress req)) then
      answer (json (ErrorBody "Wallet address is required") 400) w []
    else if negb (JS.truthy (reqFileName req)) || negb (JS.truthy (reqCid req))
            || negb (JS.truthy (reqSize req)) || negb (JS.truthy (reqMimeType req)) then
      answer (json (ErrorBody "Missing required fields") 400) w []
    else
      let wallet := default "" (reqWalletAddress req) in
      let sz := default "" (reqSize req) in
      let '(connected, w1, cs1) := ensureDbConnection (postConnect o) w in
      if negb connected then
        answer (json (ErrorBody "Failed to connect to database") 503) w1 cs1
      else
        let name := default "" (reqFileName req) in
        let c := default "" (reqCid req) in
        let mime := default "" (reqMimeType req) in
        let cs2 := cs1 ++ [FileCreate name c sz mime wallet] in
        match postCreate o with
        | Throws e => answer (postCaught e (postClock o)) w1 cs2
        | Returns (id, created, updated) =>
          let file :=
            {| _id := id; fileName := name; cid := c; size := sz;
               mimeType := mime; walletAddress := wallet;
               createdAt := created; updatedAt := updated |} in
          let w2 := setFiles (create file (files w1)) w1 in
          match JS.parseInt sz with
          | None => answer (json (ErrorBody "Invalid file size") 400) w2 cs2
          | Some sizeInBytes =>
            let cs3 := cs2 ++ [UserUpsertInc wallet sizeInBytes] in
            match postUpsert o with
            | Throws e => answer (postCaught e (postClock o)) w2 cs3
            | Returns false =>
                answer (json (ErrorBody "Failed to update user storage") 500) w2 cs3
            | Returns true =>
                let w3 := setUsers (upsertInc wallet sizeInBytes (users w2)) w2 in
                let w4 := setCache (delete (cacheKeyOf wallet) (fileListCache w3)) w3 in
                answer (json (CreatedBody file) 200) w4 cs3
            end
          end
        end
  end.

(** *** [GET]: list *)

Definition formatSize (sz : string) : string :=
  match JS.parseInt sz with
  | None => sz
  | Some sizeInBytes =>
      if sizeInBytes <? 1024 then
        JS.numberToString sizeInBytes +:+ " B"
      else if sizeInBytes <? 1024 * 1024 then
        JS.toFixed2 sizeInBytes 1024 +:+ " KB"
      else if sizeInBytes <? 1024 * 1024 * 1024 then
        JS.toFixed2 sizeInBytes (1024 * 1024) +:+ " MB"
      else
        JS.toFixed2 sizeInBytes (1024 * 1024 * 1024) +:+ " GB"
  end.

(** The function mapped over the documents found. *)
Definition transform (file : FileDoc) : ListedFile :=
  {| spread := file;
     idString := _id file;
     lastUpdate := default (createdAt file) (updatedAt file);
     formattedSize := formatSize (size file) |}.

(** What the outside answers during one [GET]: [Date.now()] at the cache
    check and at the cache store, the connection attempt,
    [FileModel.find] (resolves or throws) and the clock of the catch
    clause. *)
Record GetAnswers := {
  getNowCheck : Z;
  getConnect : Outcome unit;
  getFind : Outcome unit;
  getNowStore : Z;
  getClock : Z
}.

Definition getCaught (e : Thrown) (clock : Z) : Response :=
  match e with
  | ErrorObject message _ => json (ListFailure "Failed to fetch files" message clock) 500
  | OtherValue _ => json (ListFailure "Failed to fetch files" "Unknown error" clock) 500
  end.

(** The test of line 140: an entry is there and is younger than the TTL. *)
Definition cacheHit (now : Z) (entry : option CacheEntry) : option CacheEntry :=
  match entry with
  | Some cachedData =>
      if now - timestamp cachedData <? CACHE_TTL then Some cachedData else None
  | None => None
  end.

Definition GET (o : GetAnswers) (walletParam : option string) (w : World)
  : Result :=
  if negb (JS.truthy walletParam) then
    answer (json (ErrorBody "Wallet address is required") 400) w []
  else
    let wallet := default "" walletParam in
    let cacheKey := cacheKeyOf wallet in
    match cacheHit (getNowCheck o) (fileListCache w !! cacheKey) with
    | Some cachedData => answer (json (ListBody (data cachedData)) 200) w []
    | None =>
      let '(connected, w1, cs1) := ensureDbConnection (getConnect o) w in
      if negb connected then
        answer (json (ErrorBody "Failed to connect to database") 503) w1 cs1
      else
        let cs2 := cs1 ++ [FileFind wallet] in
        match getFind o with
        | Throws e => answer (getCaught e (getClock o)) w1 cs2
        | Returns _ =>
          let transformedFiles := map transform (find wallet (files w1)) in
          let entry := {| data := transformedFiles; timestamp := getNowStore o |} in
          let w2 := setCache (<[cacheKey := entry]> (fileListCache w1)) w1 in
          answer (json (ListBody transformedFiles) 200) w2 cs2
        end
    end.

(** *** [DELETE] *)

(** What the outside answers during one [DELETE]: the connection attempt
    and whether each of [findOne], [deleteOne] and [findOneAndUpdate]
    resolves or throws. *)
Record DeleteAnswers := {
  delConnect : Outcome unit;
  delFindOne : Outcome unit;
  delDeleteOne : Outcome unit;
  delUpdate : Outcome unit
}.

Definition deleteCaught : Response :=
  json (ErrorBody "Failed to delete file") 500.

Definition DELETE (o : DeleteAnswers) (cidParam walletParam : option string)
                  (w : World) : Result :=
  if negb (JS.truthy cidParam) || negb (JS.truthy walletParam) then
    answer (json (ErrorBody "CID and wallet address are required") 400) w []
  else
    let c := default "" cidParam in
    let wallet := default "" walletParam in
    let '(connected, w1, cs1) := ensureDbConnection (delConnect o) w in
    if negb connected then
      answer (json (ErrorBody "Failed to connect to database") 503) w1 cs1
    else
      let cs2 := cs1 ++ [FileFindOne c wallet] in
      match delFindOne o with
      | Throws _ => answer deleteCaught w1 cs2
      | Returns _ =>
        match findOne c wallet (files w1) with
        | None => answer (json (ErrorBody "File not found or unauthorized") 404) w1 cs2
        | Some file =>
          let cs3 := cs2 ++ [FileDeleteOne c wallet] in
          match delDeleteOne o with
          | Throws _ => answer deleteCaught w1 cs3
          | Returns _ =>
            let w2 := setFiles (deleteOne c wallet (files w1)) w1 in
            let sizeInBytes := JS.orZero (JS.parseInt (size file)) in
            let cs4 := cs3 ++ [UserInc wallet (- sizeInBytes)] in
            match delUpdate o with
            | Throws _ => answer deleteCaught w2 cs4
            | Returns _ =>
              let w3 := setUsers (inc wallet (- sizeInBytes) (users w2)) w2 in
              let w4 := setCache (delete (cacheKeyOf wallet) (fileListCache w3)) w3 in
              answer (json SuccessBody 200) w4 cs4
            end
          end
        end
      end.

(** *** Requests one after the other *)

Inductive Request :=
| Create (o : PostAnswers)
| List (o : GetAnswers) (walletParam : option string)
| Remove (o : DeleteAnswers) (cidParam walletParam : option string).

Definition handle (r : Request) (w : World) : Result :=
  match r with
  | Create o => POST o w
  | List o walletParam => GET o walletParam w
  | Remove o cidParam walletParam => DELETE o cidParam walletParam w
  end.

(** The world after the requests [rs], served in order. *)
Definition serve (rs : list Request) (w : World) : World :=
  foldl (fun w r => world (handle r w)) w rs.

Definition emptyWorld : World :=
  {| files := []; users := ∅; fileListCache := ∅;
     dbConnectionPromise := false |}.

End UploadRoute.

(** ** Lists that overlap other requests

    [GET] gives up control at [await FileModel.find(...)] (line 152):
    between its cache check (line 140) and its [fileListCache.set]
    (line 182) other requests run.  Here [GET] is taken in its two halves
    around that point, and a run is a sequence of steps in which a list
    may begin, wait while other steps are taken, and finish later.
    Creates and deletes are taken whole: they touch the cache once, in
    the [fileListCache.delete] that follows their last [await]. *)

Module UploadSteps.
Import UploadRoute.

(** How the first half of a list ends: with an answer, or at the [await]
    of line 152, the query having found the documents [found], in the
    world [w1] and with the calls [cs] made so far. *)
Inductive Started :=
| Answered (r : Result)
| Suspended (wallet : string) (found : list FileDoc) (w1 : World)
            (cs : list Call).

(** Lines 123 to 155 of [GET]: from the start to the query. *)
Definition GET_begin (o : GetAnswers) (walletParam : option string)
                     (w : World) : Started :=
  if negb (JS.truthy walletParam) then
    Answered (answer (json (ErrorBody "Wallet address is required") 400) w [])
  else
    let wallet := default "" walletParam in
    let cacheKey := cacheKeyOf wallet in
    match cacheHit (getNowCheck o) (fileListCache w !! cacheKey) with
    | Some cachedData =>
        Answered (answer (json (ListBody (data cachedData)) 200) w [])
    | None =>
      let '(connected, w1, cs1) := ensureDbConnection (getConnect o) w in
      if negb connected then
        Answered
          (answer (json (ErrorBody "Failed to connect to database") 503) w1 cs1)
      else
        let cs2 := cs1 ++ [FileFind wallet] in
        match getFind o with
        | Throws e => Answered (answer (getCaught e (getClock o)) w1 cs2)
        | Returns _ => Suspended wallet (find wallet (files w1)) w1 cs2
        end
    end.

(** Lines 157 to 188 of [GET]: from the resolved query to the answer, in
    the world [w] of the moment the handler resumes. *)
Definition GET_finish (o : GetAnswers) (wallet : string)
                      (found : list FileDoc) (cs : list Call) (w : World)
  : Result :=
  let transformedFiles := map transform found in
  let entry := {| data := transformedFiles; timestamp := getNowStore o |} in
  let w2 := setCache (<[cacheKeyOf wallet := entry]> (fileListCache w)) w in
  answer (json (ListBody transformedFiles) 200) w2 cs.

(** The calls the first half has made. *)
Definition startCalls (s : Started) : list Call :=
  match s with
  | Answered r => calls r
  | Suspended _ _ _ cs => cs
  end.

(** A list that waits at its query. *)
Record Pending := {
  pendingAnswers : GetAnswers;
  pendingWallet : string;
  pendingFound : list FileDoc;
  pendingCalls : list Call
}.

(** A step of a run: a request from start to end, the first half of a
    list, or the second half of the list that waits at position [i]. *)
Inductive Step :=
| Whole (r : Request)
| BeginList (o : GetAnswers) (walletParam : option string)
| FinishList (i : nat).

(** The world and the lists that wait. *)
Definition State : Type := World * list Pending.

Definition step (s : Step) (st : State) : State :=
  match s with
  | Whole r => (world (handle r (fst st)), snd st)
  | BeginList o walletParam =>
      match GET_begin o walletParam (fst st) with
      | Answered r => (world r, snd st)
      | Suspended wallet found w1 cs =>
          (w1, snd st ++ [{| pendingAnswers := o; pendingWallet := wallet;
                             pendingFound := found; pendingCalls := cs |}])
      end
  | FinishList i =>
      match snd st !! i with
      | Some p =>
          (world (GET_finish (pendingAnswers p) (pendingWallet p)
                    (pendingFound p) (pendingCalls p) (fst st)),
           delete i (snd st))
      | None => st
      end
  end.

(** The state after the steps [ss], taken in order. *)
Definition run (ss : list Step) (st : State) : State :=
  foldl (fun st s => step s st) st ss.

End UploadSteps.

(** ** The upload proxy *)

Module WebhashProxy.

Definition maxDuration : Z := 60.

(** A JSON value, as [response.json()] yields it and as
    [NextResponse.json] takes it. *)
#[local] Unset Elimination Schemes.
Inductive Json :=
| JNull
| JBool (b : bool)
| JNumber (n : Z)
| JString (s : string)
| JArray (items : list Json)
| JObject (members : list (string * Json)).
#[local] Set Elimination Schemes.

(** A value of a multipart form: a [File] or a string. *)
Inductive FormValue :=
| FileValue (name type : string) (size : Z)
| TextValue (value : string).

Definition FormData : Type := list (string * FormValue).

(** [formData.get(name)]: the first value under that name, or [null]. *)
Fixpoint get (name : string) (form : FormData) : option FormValue :=
  match form with
  | [] => None
  | (k, v) :: rest => if bool_decide (k = name) then Some v else get name rest
  end.

(** The test [if (file)]: a [File] is an object, a string is truthy
    when it is not empty. *)
Definition truthyValue (v : option FormValue) : bool :=
  match v with
  | None => false
  | Some (FileValue _ _ _) => true
  | Some (TextValue s) => JS.truthy (Some s)
  end.

(** The response of the external API, with what reading its body as
    text and as JSON gives. *)
Record ExternalResponse := {
  extStatus : Z;
  extStatusText : string;
  extText : Outcome string;
  extJson : Outcome Json
}.

(** [response.ok]. *)
Definition ok (r : ExternalResponse) : bool :=
  (200 <=? extStatus r) && (extStatus r <=? 299).

(** What one request meets: the two environment variables, the form
    [request.formData()] yields, what [fetch] does, and what the
    [Response] constructor throws when it refuses a status. *)
Record ProxyAnswers := {
  NEXT_PUBLIC_WEBHASH_API_URL : option string;
  NEXT_PUBLIC_WEBHASH_API_KEY : option string;
  requestFormData : Outcome FormData;
  fetched : Outcome ExternalResponse;
  responseInitError : Thrown
}.

(** The effects of the handler on the request and on the network. *)
Inductive Effect :=
| ReadFormData
| Fetch (url authorization : string) (form : FormData)
| ReadText
| ReadJson.

Record Response := {
  status : Z;
  body : Json
}.

(** [NextResponse.json(body, { status })].  It builds a [Response], whose
    constructor throws for a status outside 200 to 599 and for a status
    that allows no body (of these only 204, 205 and 304 are in range). *)
Definition json (o : ProxyAnswers) (b : Json) (st : Z) : Outcome Response :=
  if (200 <=? st) && (st <=? 599)
     && negb ((st =? 204) || (st =? 205) || (st =? 304))
  then Returns {| status := st; body := b |}
  else Throws (responseInitError o).

Definition errorText (e : Thrown) : string :=
  match e with
  | ErrorObject message _ => message
  | OtherValue text => text
  end.

(** The outer catch clause. *)
Definition caught (e : Thrown) : Response :=
  {| status := 500;
     body := JObject [("error", JString "Failed to proxy request to WebHash API");
                      ("details", JString (errorText e))] |}.

(** A [return NextResponse.json(...)] inside the outer [try]. *)
Definition reply (r : Outcome Response) (effects : list Effect)
  : Response * list Effect :=
  match r with
  | Returns resp => (resp, effects)
  | Throws e => (caught e, effects)
  end.

Definition POST (o : ProxyAnswers) : Response * list Effect :=
  let webhashApiUrl :=
    if JS.truthy (NEXT_PUBLIC_WEBHASH_API_URL o)
    then default "" (NEXT_PUBLIC_WEBHASH_API_URL o)
    else "http://52.38.175.117:5000" in
  if negb (JS.truthy (NEXT_PUBLIC_WEBHASH_API_KEY o)) then
    reply (json o (JObject [("error", JString "WebHash API key is not configured")]) 500) []
  else
    let webhashApiKey := default "" (NEXT_PUBLIC_WEBHASH_API_KEY o) in
    match requestFormData o with
    | Throws e => (caught e, [ReadFormData])
    | Returns formData =>
      if negb (truthyValue (get "file" formData)) then
        reply (json o (JObject [("error", JString "No file found in request")]) 400)
              [ReadFormData]
      else
        let sent := [ReadFormData;
                     Fetch (webhashApiUrl +:+ "/upload")
                           ("Bearer " +:+ webhashApiKey) formData] in
        match fetched o with
        | Throws fetchError =>
            reply (json o (JObject [("error",
                     JString ("WebHash API fetch error: " +:+ errorText fetchError))]) 500)
                  sent
        | Returns webhashResponse =>
          if negb (ok webhashResponse) then
            let text :=
              match extText webhashResponse with
              | Returns t => t
              | Throws _ => "Could not read error response"
              end in
            reply (json o (JObject [
                     ("error", JString ("WebHash API error: "
                        +:+ JS.numberToString (extStatus webhashResponse)
                        +:+ " " +:+ extStatusText webhashResponse));
                     ("details", JString text)])
                   (extStatus webhashResponse))
                  (sent ++ [ReadText])
          else
            match extJson webhashResponse with
            | Throws _ =>
                reply (json o (JObject [("error",
                         JString "Failed to parse WebHash API response")]) 500)
                      (sent ++ [ReadJson])
            | Returns webhashData =>
                reply (json o webhashData 200) (sent ++ [ReadJson])
            end
        end
    end.

End WebhashProxy.


(** * Vocabulary of the statements *)

Module JSTerms.
Import JS.

(** The text starts with something that is not a digit, or is empty. *)
Definition noDigitAhead (t : string) : Prop :=
  match t with
  | EmptyString => True
  | String c _ => digitValue c = None
  end.

(** [num / den] to two decimals, as a text: the nearest number [m] of
    hundredths (the larger one of two), printed as its whole part, a point
    and the two digits of [m mod 100]. *)
Definition twoDecimals (num den : Z) : string :=
  let m := (200 * num + den) / (2 * den) in
  numberToString (m / 100) +:+ "."
  +:+ String (digitChar (m / 10 mod 10)) (String (digitChar (m mod 10)) "").

End JSTerms.

Module UploadTerms.
Import UploadRoute.

(** A parsed request body that carries all five fields. *)
Definition uploadOf (name c sz mime wallet : string) : UploadData :=
  {| reqFileName := Some name; reqCid := Some c; reqSize := Some sz;
     reqMimeType := Some mime; reqWalletAddress := Some wallet |}.

(** The document [FileModel.create] stores for such a body. *)
Definition fileOf (name c sz mime wallet : string)
                  (stamp : string * Z * option Z) : FileDoc :=
  let '(id, created, updated) := stamp in
  {| _id := id; fileName := name; cid := c; size := sz;
     mimeType := mime; walletAddress := wallet;
     createdAt := created; updatedAt := updated |}.

(** The connection is there: it is memoised, or the attempt resolves. *)
Definition connects (connect : Outcome unit) (w : World) : Prop :=
  dbConnectionPromise w = true ∨ ∃ u, connect = Returns u.

(** The call [ensureDbConnection] makes when nothing is memoised. *)
Definition connectCalls (w : World) : list Call :=
  if dbConnectionPromise w then [] else [ConnectToDatabase].

(** [totalStorageUsed] of a wallet, [None] without a [User] document. *)
Definition totalStorageUsed (wallet : string) (w : World) : option Z :=
  users w !! wallet.

(** The list a [GET] computes from the database for a wallet. *)
Definition freshList (wallet : string) (w : World) : list ListedFile :=
  map transform (find wallet (files w)).

(** What identifies a record: its content identifier and its wallet. *)
Definition recordKey (f : FileDoc) : string * string :=
  (cid f, walletAddress f).

(** Modelled from the spec: [@/models/File] is not among the sources, and
    the data model names the pair of content identifier and wallet
    address as what makes a FileRecord unique.  No two stored records
    share that pair. *)
Definition uniqueKeys (fs : list FileDoc) : Prop :=
  NoDup (recordKey <$> fs).

(** A size string on which [JS.parseInt] is [parseInt]: when it parses,
    the value is a safe integer. *)
Definition safeSize (sz : string) : Prop :=
  ∀ n, JS.parseInt sz = Some n → JS.isSafeInteger n.

(** The database answers every call of a [POST]. *)
Definition postSucceeds (o : PostAnswers) (w : World)
                        (stamp : string * Z * option Z) : Prop :=
  connects (postConnect o) w ∧ postCreate o = Returns stamp
  ∧ postUpsert o = Returns true.

(** The database answers every call of a [GET]. *)
Definition getSucceeds (o : GetAnswers) (w : World) : Prop :=
  connects (getConnect o) w ∧ getFind o = Returns tt.

(** The database answers every call of a [DELETE]. *)
Definition deleteSucceeds (o : DeleteAnswers) (w : World) : Prop :=
  connects (delConnect o) w ∧ delFindOne o = Returns tt
  ∧ delDeleteOne o = Returns tt ∧ delUpdate o = Returns tt.

(** The request is a create or a delete for [wallet]. *)
Definition mutates (wallet : string) (r : Request) : Prop :=
  match r with
  | Create o => ∃ req, postJson o = Returns req ∧ reqWalletAddress req = Some wallet
  | Remove _ _ walletParam => walletParam = Some wallet
  | List _ _ => False
  end.

(** Newest first. *)
Definition newestFirst (fs : list FileDoc) : Prop :=
  ∀ i j f g, (i < j)%nat → fs !! i = Some f → fs !! j = Some g →
             createdAt g ≤ createdAt f.

End UploadTerms.

Module ProxyTerms.
Import WebhashProxy.

(** The bearer key is configured. *)
Definition configured (o : ProxyAnswers) : Prop :=
  JS.truthy (NEXT_PUBLIC_WEBHASH_API_KEY o) = true.

(** A status that a response with a body may carry. *)
Definition relayable (st : Z) : Prop :=
  200 ≤ st ≤ 599 ∧ st ≠ 204 ∧ st ≠ 205 ∧ st ≠ 304.

(** A call to the external API was attempted. *)
Definition calledOut (effects : list Effect) : Prop :=
  ∃ url authorization form, Fetch url authorization form ∈ effects.

(** The body the proxy answers with when the external API fails. *)
Definition relayedError (st : Z) (statusText text : string) : Json :=
  JObject [("error", JString ("WebHash API error: " +:+ JS.numberToString st
                              +:+ " " +:+ statusText));
           ("details", JString text)].

End ProxyTerms.

(** * Sample requests *)

Module Samples.
Import UploadRoute UploadSteps UploadTerms.

Definition sampleStamp : string * Z * option Z :=
  ("665f1c2e9b1d4a0012345678", 1700000000000, Some 1700000000000).

(** A create of [a.txt] for wallet [0xabc] with the given size string,
    the database answering every call. *)
Definition samplePostAt (stamp : string * Z * option Z) (sz : string)
                        (upsert : Outcome bool) : PostAnswers :=
  {| postJson := Returns (uploadOf "a.txt" "QmA" sz "text/plain" "0xabc");
     postConnect := Returns tt;
     postCreate := Returns stamp;
     postUpsert := upsert;
     postClock := 1700000000500 |}.

Definition samplePost : string → Outcome bool → PostAnswers :=
  samplePostAt sampleStamp.

Definition laterStamp : string * Z * option Z :=
  ("665f1c2e9b1d4a0012345679", 1700000060000, Some 1700000060000).

(** A create of [b.txt] for wallet [0xabc], a minute after [a.txt]. *)
Definition secondPost (sz : string) (upsert : Outcome bool) : PostAnswers :=
  {| postJson := Returns (uploadOf "b.txt" "QmB" sz "text/plain" "0xabc");
     postConnect := Returns tt;
     postCreate := Returns laterStamp;
     postUpsert := upsert;
     postClock := 1700000060500 |}.

(** Two files registered by the same wallet. *)
Definition uploadedTwice : World :=
  serve [Create (samplePost "500" (Returns true));
         Create (secondPost "500" (Returns true))] emptyWorld.

(** A list read at [now], the database answering every call. *)
Definition sampleGet (now : Z) : GetAnswers :=
  {| getNowCheck := now; getConnect := Returns tt; getFind := Returns tt;
     getNowStore := now; getClock := now |}.

Definition sampleDelete : DeleteAnswers :=
  {| delConnect := Returns tt; delFindOne := Returns tt;
     delDeleteOne := Returns tt; delUpdate := Returns tt |}.

(** Wallet [0xabc] has listed its files once, at time 0: the cache holds
    that list. *)
Definition listedOnce : World :=
  world (GET (sampleGet 0) (Some "0xabc") emptyWorld).

(** Wallet [0xabc] has registered [a.txt], then listed its files at
    time 0: the cache holds the list with that file. *)
Definition uploadedAndListed : World :=
  serve [Create (samplePost "500" (Returns true));
         List (sampleGet 0) (Some "0xabc")] emptyWorld.

(** A list for wallet [0xabc], begun at time 0 with nothing stored, waits
    at its query. *)
Definition listInFlight : State :=
  run [BeginList (sampleGet 0) (Some "0xabc")] (emptyWorld, []).

(** A list read at [now] while the database cannot be reached. *)
Definition unreachableGet (now : Z) : GetAnswers :=
  {| getNowCheck := now;
     getConnect := Throws (ErrorObject "connect ECONNREFUSED" "");
     getFind := Returns tt;
     getNowStore := now; getClock := now |}.

(** A delete whose account update throws after the record is gone. *)
Definition halfDelete : DeleteAnswers :=
  {| delConnect := Returns tt; delFindOne := Returns tt;
     delDeleteOne := Returns tt;
     delUpdate := Throws (ErrorObject "socket timeout" "") |}.

(** A stored document of the given size. *)
Definition sampleFile (sz : string) : FileDoc :=
  fileOf "a.txt" "QmA" sz "text/plain" "0xabc" sampleStamp.

End Samples.

Module ProxySamples.
Import WebhashProxy.

Definition sampleForm : FormData :=
  [("file", FileValue "a.txt" "text/plain" 500)].

(** The external API answers with the given status, status text and body
    text. *)
Definition externalAnswer (st : Z) (statusText text : string)
  : ExternalResponse :=
  {| extStatus := st; extStatusText := statusText;
     extText := Returns text;
     extJson := Throws (ErrorObject "Unexpected token" "") |}.

(** A request with the given key and form, the external API answering
    with [r]. *)
Definition sampleRequest (key : option string) (form : FormData)
                         (r : ExternalResponse) : ProxyAnswers :=
  {| NEXT_PUBLIC_WEBHASH_API_URL := None;
     NEXT_PUBLIC_WEBHASH_API_KEY := key;
     requestFormData := Returns form;
     fetched := Returns r;
     responseInitError := ErrorObject "status out of range" "" |}.

(** The external API answers with a success status and a JSON body. *)
Definition successAnswer (st : Z) (j : Json) : ExternalResponse :=
  {| extStatus := st; extStatusText := "Created";
     extText := Returns ""; extJson := Returns j |}.

Definition pinned : Json :=
  JObject [("cid", JString "QmA"); ("size", JNumber 500)].

(** A request whose call to the external API fails in transit. *)
Definition abortedRequest : ProxyAnswers :=
  {| NEXT_PUBLIC_WEBHASH_API_URL := Some "https://api.example.org";
     NEXT_PUBLIC_WEBHASH_API_KEY := Some "k3y";
     requestFormData := Returns sampleForm;
     fetched := Throws (ErrorObject "The operation was aborted due to timeout" "");
     responseInitError := ErrorObject "status out of range" "" |}.

End ProxySamples.

(** * Vocabulary for the properties of whole runs *)

Module RunTerms.
Import UploadRoute UploadTerms.

(** The wallet a request names, if it names one. *)
Definition requestWallet (r : Request) : option string :=
  match r with
  | Create o =>
      match postJson o with
      | Returns req => reqWalletAddress req
      | Throws _ => None
      end
  | List _ walletParam => walletParam
  | Remove _ _ walletParam => walletParam
  end.

(** What [connectToDatabase()] does during a request, if it is called. *)
Definition connectOf (r : Request) : Outcome unit :=
  match r with
  | Create o => postConnect o
  | List o _ => getConnect o
  | Remove o _ _ => delConnect o
  end.

(** A field or parameter the handler asks for is absent or empty. *)
Definition incomplete (r : Request) : Prop :=
  match r with
  | Create o =>
      ∃ req, postJson o = Returns req
        ∧ (JS.truthy (reqWalletAddress req) && JS.truthy (reqFileName req)
           && JS.truthy (reqCid req) && JS.truthy (reqSize req)
           && JS.truthy (reqMimeType req) = false)
  | List _ walletParam => JS.truthy walletParam = false
  | Remove _ cidParam walletParam =>
      JS.truthy cidParam && JS.truthy walletParam = false
  end.

(** The message of the 400 an incomplete request gets. *)
Definition refusal (r : Request) : string :=
  match r with
  | Create o =>
      match postJson o with
      | Returns req =>
          if JS.truthy (reqWalletAddress req) then "Missing required fields"
          else "Wallet address is required"
      | Throws _ => ""
      end
  | List _ _ => "Wallet address is required"
  | Remove _ _ _ => "CID and wallet address are required"
  end.

(** The request gets as far as [ensureDbConnection]: its input is
    complete and, for a list, the cache does not answer. *)
Definition reachesDatabase (r : Request) (w : World) : Prop :=
  match r with
  | Create o =>
      ∃ req, postJson o = Returns req
        ∧ (JS.truthy (reqWalletAddress req) && JS.truthy (reqFileName req)
           && JS.truthy (reqCid req) && JS.truthy (reqSize req)
           && JS.truthy (reqMimeType req) = true)
  | List o walletParam =>
      ∃ wallet, walletParam = Some wallet ∧ wallet ≠ ""
        ∧ cacheHit (getNowCheck o) (fileListCache w !! cacheKeyOf wallet) = None
  | Remove _ cidParam walletParam =>
      JS.truthy cidParam && JS.truthy walletParam = true
  end.

(** The database calls of a run, in order. *)
Fixpoint callsOf (rs : list Request) (w : World) : list Call :=
  match rs with
  | [] => []
  | r :: rest => calls (handle r w) ++ callsOf rest (world (handle r w))
  end.

(** The records of a wallet, in natural order. *)
Definition recordsOf (wallet : string) (fs : list FileDoc) : list FileDoc :=
  filter (fun f => walletAddress f = wallet) fs.

(** The size of a record as [DELETE] counts it. *)
Definition parsedSize (f : FileDoc) : Z := JS.orZero (JS.parseInt (size f)).

(** The sum of the sizes of the records of a wallet. *)
Definition storedBytes (wallet : string) (fs : list FileDoc) : Z :=
  foldr (fun f total => parsedSize f + total) 0 (recordsOf wallet fs).

(** The accounts agree with the records: an account holds the sum of the
    sizes of the wallet's records, and a wallet without account has no
    record whose size parses. *)
Definition accounted (w : World) : Prop :=
  ∀ wallet,
    match users w !! wallet with
    | Some total => total = storedBytes wallet (files w)
    | None => ∀ f, f ∈ files w → walletAddress f = wallet →
                   JS.parseInt (size f) = None
    end.

(** The account update of the request, if it comes to it, resolves with a
    document. *)
Definition accountUpdateAnswers (r : Request) : Prop :=
  match r with
  | Create o => postUpsert o = Returns true
  | Remove o _ _ => ∃ u, delUpdate o = Returns u
  | List _ _ => True
  end.

(** The size a create carries is one on which [JS.parseInt] is
    [parseInt]. *)
Definition safeCreate (r : Request) : Prop :=
  match r with
  | Create o =>
      ∀ req sz, postJson o = Returns req → reqSize req = Some sz → safeSize sz
  | List _ _ | Remove _ _ _ => True
  end.

(** The decoration of a listed file is the one [GET] computes. *)
Definition decorated (lf : ListedFile) : Prop :=
  idString lf = _id (spread lf)
  ∧ lastUpdate lf = default (createdAt (spread lf)) (updatedAt (spread lf))
  ∧ formattedSize lf = formatSize (size (spread lf)).

End RunTerms.

Module ProxyRunTerms.
Import WebhashProxy ProxyTerms.

(** The base address of the external API: the environment variable, or
    the default when it is absent or empty. *)
Definition baseUrl (o : ProxyAnswers) : string :=
  if JS.truthy (NEXT_PUBLIC_WEBHASH_API_URL o)
  then default "" (NEXT_PUBLIC_WEBHASH_API_URL o)
  else "http://52.38.175.117:5000".

Definition isFetch (e : Effect) : bool :=
  match e with Fetch _ _ _ => true | _ => false end.

(** The calls to the external API among the effects. *)
Definition fetchesOf (effects : list Effect) : list Effect :=
  List.filter isFetch effects.

(** The request is ready to be forwarded: key configured, form read, and
    a truthy [file] field in it. *)
Definition forwardable (o : ProxyAnswers) (key : string) (form : FormData)
  : Prop :=
  NEXT_PUBLIC_WEBHASH_API_KEY o = Some key ∧ key ≠ ""
  ∧ requestFormData o = Returns form
  ∧ truthyValue (get "file" form) = true.

End ProxyRunTerms.

(** * Properties *)

(** ** The built-ins on sample inputs *)

Example parseInt_500 : JS.parseInt "500" = Some 500.
Proof. reflexivity. Qed.
Example parseInt_neg : JS.parseInt "-100" = Some (-100).
Proof. reflexivity. Qed.
Example parseInt_trailing : JS.parseInt "12abc" = Some 12.
Proof. reflexivity. Qed.
Example parseInt_ws : JS.parseInt "  +7.9" = Some 7.
Proof. reflexivity. Qed.
Example parseInt_nan : JS.parseInt "abc" = None.
Proof. reflexivity. Qed.
Example parseInt_sign_only : JS.parseInt "-" = None.
Proof. reflexivity. Qed.
Example parseInt_minus_zero : JS.parseInt "-0" = Some 0.
Proof. reflexivity. Qed.
Example numberToString_0 : JS.numberToString 0 = "0".
Proof. reflexivity. Qed.
Example numberToString_neg : JS.numberToString (-100) = "-100".
Proof. reflexivity. Qed.
Example numberToString_big :
  JS.numberToString 9007199254740991 = "9007199254740991".
Proof. vm_compute. reflexivity. Qed.
Example toFixed2_2 : JS.toFixed2 2048 1024 = "2.00".
Proof. reflexivity. Qed.
Example toFixed2_round : JS.toFixed2 1029 1024 = "1.00".
Proof. vm_compute. reflexivity. Qed.
Example toFixed2_half : JS.toFixed2 1 8 = "0.13".
Proof. vm_compute. reflexivity. Qed.
Example toFixed2_small : JS.toFixed2 1 1024 = "0.00".
Proof. vm_compute. reflexivity. Qed.

(** ** Facts about [parseInt] *)

Module JSFacts.
Import JS JSTerms.

Lemma truthy_Some (s : string) : s ≠ "" → truthy (Some s) = true.
Proof. destruct s; [congruence | reflexivity]. Qed.

Lemma truthy_inv (x : option string) :
  truthy x = true → ∃ s, x = Some s ∧ s ≠ "".
Proof.
  destruct x as [[|c s]|]; simpl; try discriminate.
  intros _. eexists; split; [reflexivity | discriminate].
Qed.

Lemma parseInt_nonempty (s : string) (n : Z) : parseInt s = Some n → s ≠ "".
Proof. intros H ->. discriminate H. Qed.

Lemma digitsPrefix_app (body t : string) (acc : option Z) :
  noDigitAhead t → digitsPrefix (body +:+ t) acc = digitsPrefix body acc.
Proof.
  intros Ht. revert acc.
  induction body as [|c body IH]; intros acc; simpl.
  - destruct t as [|c t]; simpl in *; [reflexivity | now rewrite Ht].
  - destruct (digitValue c); [apply IH | reflexivity].
Qed.

Lemma trimStart_app (s t : string) :
  trimStart s ≠ "" → trimStart (s +:+ t) = trimStart s +:+ t.
Proof.
  induction s as [|c s IH]; simpl; [congruence |].
  destruct (isStrWhiteSpaceChar c); [exact IH | reflexivity].
Qed.

(** Whatever follows the digits is ignored. *)
Lemma parseInt_app (s t : string) (n : Z) :
  noDigitAhead t → parseInt s = Some n → parseInt (s +:+ t) = Some n.
Proof.
  intros Ht Hs. unfold parseInt in *.
  assert (Hne : trimStart s ≠ "").
  { intros E. rewrite E in Hs. discriminate Hs. }
  rewrite (trimStart_app s t Hne).
  destruct (trimStart s) as [|c rest]; [congruence |].
  change (String c rest +:+ t) with (String c (rest +:+ t)).
  destruct (ascii_dec c "-") as [-> | Hm].
  { simpl in *. rewrite digitsPrefix_app; assumption. }
  destruct (ascii_dec c "+") as [-> | Hp].
  { simpl in *. rewrite digitsPrefix_app; assumption. }
  assert (E : ∀ r : string,
    (let '(sign, body) :=
       match String c r with
       | String "-" rest0 => (-1, rest0)
       | String "+" rest0 => (1, rest0)
       | _ => (1, String c r)
       end in
     match digitsPrefix body None with
     | Some mathInt => Some (sign * mathInt)
     | None => None
     end) =
    match digitsPrefix (String c r) None with
    | Some mathInt => Some (1 * mathInt)
    | None => None
    end).
  { intros r.
    destruct c as [[] [] [] [] [] [] [] []]; try reflexivity; congruence. }
  rewrite E in Hs. rewrite E.
  change (String c (rest +:+ t)) with (String c rest +:+ t).
  rewrite digitsPrefix_app; assumption.
Qed.

(** *** Printing numbers *)

#[local] Arguments String.append : simpl nomatch.

Lemma append_assoc (a b c : string) : (a +:+ b) +:+ c = a +:+ (b +:+ c).
Proof. induction a as [|x a IH]; simpl; [reflexivity | now rewrite IH]. Qed.

Lemma length_append (a b : string) :
  String.length (a +:+ b) = (String.length a + String.length b)%nat.
Proof. induction a as [|x a IH]; simpl; [reflexivity | now rewrite IH]. Qed.

Lemma substring_all (a : string) : substring 0 (String.length a) a = a.
Proof. induction a as [|x a IH]; simpl; [reflexivity | now rewrite IH]. Qed.

Lemma substring_front (a b : string) :
  substring 0 (String.length a) (a +:+ b) = a.
Proof.
  induction a as [|x a IH]; simpl; [destruct b; reflexivity | now rewrite IH].
Qed.

Lemma substring_back (a b : string) :
  substring (String.length a) (String.length b) (a +:+ b) = b.
Proof. induction a as [|x a IH]; simpl; [apply substring_all | exact IH]. Qed.

Lemma decimalDigits_acc (fuel : nat) (n : Z) (acc : string) :
  decimalDigits fuel n acc = decimalDigits fuel n "" +:+ acc.
Proof.
  revert n acc. induction fuel as [|fuel IH]; intros n acc; [reflexivity |].
  cbn [decimalDigits]. destruct (n <? 10); [reflexivity |].
  rewrite (IH (n / 10) (String (digitChar (n mod 10)) acc)).
  rewrite (IH (n / 10) (String (digitChar (n mod 10)) "")).
  now rewrite append_assoc.
Qed.

(** Any fuel that covers the digits of [n] gives the same digits. *)
Lemma decimalDigits_fuel (f1 f2 : nat) (n : Z) (acc : string) :
  0 ≤ n < 10 ^ Z.of_nat (S f1) → n < 10 ^ Z.of_nat (S f2) →
  decimalDigits (S f1) n acc = decimalDigits (S f2) n acc.
Proof.
  revert f2 n acc. induction f1 as [|f1 IH]; intros f2 n acc H1 H2.
  - change (10 ^ Z.of_nat 1) with 10 in H1.
    cbn [decimalDigits]. destruct (Z.ltb_spec n 10); [reflexivity | lia].
  - cbn [decimalDigits]. destruct (Z.ltb_spec n 10) as [|Hge]; [reflexivity |].
    destruct f2 as [|f2].
    { change (10 ^ Z.of_nat 1) with 10 in H2. lia. }
    apply IH.
    + rewrite Nat2Z.inj_succ, Z.pow_succ_r in H1 by lia.
      split; [apply Z.div_pos; lia | apply Z.div_lt_upper_bound; lia].
    + rewrite Nat2Z.inj_succ, Z.pow_succ_r in H2 by lia.
      apply Z.div_lt_upper_bound; lia.
Qed.

Lemma digitsBound_enough (n : Z) : 0 ≤ n → n < 10 ^ Z.of_nat (digitsBound n).
Proof.
  intros Hn. unfold digitsBound.
  rewrite Nat2Z.inj_succ, Z2Nat.id by apply Z.log2_nonneg.
  destruct (Z.eq_dec n 0) as [-> | Hne]; [reflexivity |].
  destruct (Z.log2_spec n) as [_ Hlt]; [lia |].
  eapply Z.lt_le_trans; [exact Hlt |].
  apply Z.pow_le_mono_l. lia.
Qed.

(** The digits of [m >= 100] are those of [m / 100] and two more. *)
Lemma numberToString_split (m : Z) :
  100 ≤ m →
  numberToString m
  = numberToString (m / 100)
    +:+ String (digitChar (m / 10 mod 10)) (String (digitChar (m mod 10)) "").
Proof.
  intros Hm. unfold numberToString.
  assert (Hq : 1 ≤ m / 100) by (apply Z.div_le_lower_bound; lia).
  destruct (Z.ltb_spec m 0); [lia |].
  destruct (Z.ltb_spec (m / 100) 0); [lia |].
  pose proof (digitsBound_enough m ltac:(lia)) as Hb.
  pose proof (digitsBound_enough (m / 100) ltac:(lia)) as Hbq.
  unfold digitsBound in *.
  set (k := Z.to_nat (Z.log2 m)) in *.
  set (kq := Z.to_nat (Z.log2 (m / 100))) in *.
  assert (Hm2 : m < 10 ^ Z.of_nat (S (S (S kq)))).
  { rewrite (Nat2Z.inj_succ (S (S kq))), Z.pow_succ_r by lia.
    rewrite (Nat2Z.inj_succ (S kq)), Z.pow_succ_r by lia.
    pose proof (Z.div_mod m 100 ltac:(lia)).
    pose proof (Z.mod_pos_bound m 100 ltac:(lia)). lia. }
  rewrite (decimalDigits_fuel k (S (S kq)) m "") by lia.
  cbn [decimalDigits].
  destruct (Z.ltb_spec m 10); [lia |].
  assert (Hd : m / 10 / 10 = m / 100) by (rewrite Z.div_div by lia; reflexivity).
  destruct (Z.ltb_spec (m / 10) 10) as [Hlt | _].
  { pose proof (Z.div_le_lower_bound m 10 10 ltac:(lia) ltac:(lia)). lia. }
  rewrite Hd. exact (decimalDigits_acc (S kq) (m / 100) _).
Qed.

Lemma numberToString_length (m : Z) :
  100 ≤ m → (3 ≤ String.length (numberToString m))%nat.
Proof.
  intros Hm. rewrite numberToString_split, length_append by assumption.
  cbn [String.length].
  assert (0 < String.length (numberToString (m / 100)))%nat; [|lia].
  unfold numberToString, digitsBound.
  destruct (_ <? 0); cbn [decimalDigits String.length]; [lia |].
  destruct (_ <? 10); [cbn; lia |].
  rewrite decimalDigits_acc, length_append. cbn. lia.
Qed.

(** *** Printing and parsing agree *)

Lemma digitChar_digit (d : Z) :
  0 ≤ d < 10 →
  digitValue (digitChar d) = Some d
  ∧ isStrWhiteSpaceChar (digitChar d) = false
  ∧ digitChar d ≠ "-"%char ∧ digitChar d ≠ "+"%char.
Proof.
  intros Hd.
  assert (Hcases : d = 0 ∨ d = 1 ∨ d = 2 ∨ d = 3 ∨ d = 4 ∨ d = 5
                   ∨ d = 6 ∨ d = 7 ∨ d = 8 ∨ d = 9) by lia.
  repeat (destruct Hcases as [-> | Hcases]); try subst d;
    (split; [reflexivity | split; [reflexivity | split; discriminate]]).
Qed.

Lemma digitsPrefix_decimalDigits (fuel : nat) (n : Z) (acc : string)
    (a : option Z) :
  0 ≤ n < 10 ^ Z.of_nat (S fuel) →
  ∃ k, 0 ≤ k
    ∧ digitsPrefix (decimalDigits (S fuel) n acc) a
      = digitsPrefix acc (Some (10 ^ k * default 0 a + n)).
Proof.
  revert n acc a. induction fuel as [|fuel IH]; intros n acc a Hn.
  - change (10 ^ Z.of_nat 1) with 10 in Hn.
    cbn [decimalDigits]. destruct (Z.ltb_spec n 10); [|lia].
    exists 1. split; [lia |]. cbn [digitsPrefix].
    rewrite Z.mod_small by lia.
    destruct (digitChar_digit n ltac:(lia)) as (-> & _).
    change (10 ^ 1) with 10. reflexivity.
  - cbn [decimalDigits]. destruct (Z.ltb_spec n 10) as [Hlt | Hge].
    + exists 1. split; [lia |]. cbn [digitsPrefix].
      rewrite Z.mod_small by lia.
      destruct (digitChar_digit n ltac:(lia)) as (-> & _).
      change (10 ^ 1) with 10. reflexivity.
    + rewrite Nat2Z.inj_succ, Z.pow_succ_r in Hn by lia.
      destruct (IH (n / 10) (String (digitChar (n mod 10)) acc) a) as (k & Hk & E).
      { split; [apply Z.div_pos; lia | apply Z.div_lt_upper_bound; lia]. }
      exists (k + 1). split; [lia |].
      cbn [decimalDigits] in E. rewrite E. cbn [digitsPrefix].
      pose proof (Z.mod_pos_bound n 10 ltac:(lia)) as Hmod.
      destruct (digitChar_digit (n mod 10) Hmod) as (-> & _).
      cbn [default from_option id]. f_equal. f_equal.
      rewrite Z.pow_add_r by lia. change (10 ^ 1) with 10.
      pose proof (Z.div_mod n 10 ltac:(lia)). lia.
Qed.

Lemma decimalDigits_head (fuel : nat) (n : Z) (acc : string) :
  0 ≤ n →
  ∃ d rest, 0 ≤ d < 10 ∧ decimalDigits (S fuel) n acc = String (digitChar d) rest.
Proof.
  revert n acc. induction fuel as [|fuel IH]; intros n acc Hn;
    cbn [decimalDigits]; pose proof (Z.mod_pos_bound n 10 ltac:(lia));
    destruct (n <? 10); eauto.
  apply (IH (n / 10)). apply Z.div_pos; lia.
Qed.

Lemma parseInt_digits (fuel : nat) (n : Z) :
  0 ≤ n < 10 ^ Z.of_nat (S fuel) →
  parseInt (decimalDigits (S fuel) n "") = Some n
  ∧ parseInt (String "-" (decimalDigits (S fuel) n "")) = Some (- n).
Proof.
  intros Hn.
  destruct (digitsPrefix_decimalDigits fuel n "" None Hn) as (k & Hk & E).
  cbn [digitsPrefix default from_option id] in E.
  replace (10 ^ k * 0 + n) with n in E by lia.
  split.
  - destruct (decimalDigits_head fuel n "" ltac:(lia)) as (d & rest & Hd & Es).
    rewrite Es in E |- *.
    destruct (digitChar_digit d Hd) as (_ & Hws & Hminus & Hplus).
    unfold parseInt. cbn [trimStart]. rewrite Hws.
    assert (Hm : (let '(sign, body) :=
                    match String (digitChar d) rest with
                    | String "-" rest0 => (-1, rest0)
                    | String "+" rest0 => (1, rest0)
                    | _ => (1, String (digitChar d) rest)
                    end in
                  match digitsPrefix body None with
                  | Some mathInt => Some (sign * mathInt)
                  | None => None
                  end)
                 = match digitsPrefix (String (digitChar d) rest) None with
                   | Some mathInt => Some (1 * mathInt)
                   | None => None
                   end).
    { destruct (digitChar d) as [[] [] [] [] [] [] [] []];
        try reflexivity; congruence. }
    rewrite Hm, E. f_equal; lia.
  - unfold parseInt. cbn [trimStart].
    change (isStrWhiteSpaceChar "-") with false. cbv iota.
    rewrite E. f_equal; lia.
Qed.

(** What [numberToString] prints, [parseInt] reads back. *)
Lemma parseInt_numberToString (n : Z) : parseInt (numberToString n) = Some n.
Proof.
  unfold numberToString. destruct (Z.ltb_spec n 0).
  - pose proof (digitsBound_enough (- n) ltac:(lia)) as Hb.
    unfold digitsBound in *.
    assert (H0 : 0 ≤ - n) by lia.
    destruct (parseInt_digits _ (- n) (conj H0 Hb)) as [_ ->].
    f_equal; lia.
  - pose proof (digitsBound_enough n ltac:(lia)) as Hb.
    unfold digitsBound in *.
    assert (H0 : 0 ≤ n) by lia.
    now destruct (parseInt_digits _ n (conj H0 Hb)) as [-> _].
Qed.

(** The number of hundredths [toFixed2] prints is within half a
    hundredth of the quotient, and is the larger one of two. *)
Lemma nearestHundredths_nearest (num den : Z) :
  0 < den →
  let m := nearestHundredths num den in
  2 * (m * den - 100 * num) ≤ den ∧ - den < 2 * (m * den - 100 * num).
Proof.
  intros Hden m. subst m. unfold nearestHundredths.
  pose proof (Z.div_mod (200 * num + den) (2 * den) ltac:(lia)).
  pose proof (Z.mod_pos_bound (200 * num + den) (2 * den) ltac:(lia)).
  nia.
Qed.

(** For a quotient of at least 1, [toFixed(2)] prints the quotient to two
    decimals. *)
Lemma toFixed2_twoDecimals (num den : Z) :
  0 < den ≤ num → toFixed2 num den = twoDecimals num den.
Proof.
  intros [Hden Hnum]. unfold toFixed2, twoDecimals.
  destruct (Z.ltb_spec num 0); [lia |].
  fold (nearestHundredths num den). cbv zeta.
  assert (Hm : 100 ≤ nearestHundredths num den).
  { unfold nearestHundredths. apply Z.div_le_lower_bound; lia. }
  set (m := nearestHundredths num den) in *.
  pose proof (numberToString_length m Hm) as Hlen.
  rewrite (numberToString_split m Hm) in Hlen |- *.
  set (q := numberToString (m / 100)) in *.
  set (t := String (digitChar (m / 10 mod 10)) (String (digitChar (m mod 10)) "")) in *.
  rewrite length_append in Hlen. change (String.length t) with 2%nat in Hlen.
  rewrite !length_append. change (String.length t) with 2%nat.
  replace (3 - (String.length q + 2))%nat with 0%nat by lia.
  cbn [zeros String.length]. change ("" +:+ q +:+ t) with (q +:+ t).
  replace (0 + (String.length q + 2) - 2)%nat with (String.length q) by lia.
  rewrite substring_front.
  change (substring (String.length q) 2 (q +:+ t))
    with (substring (String.length q) (String.length t) (q +:+ t)).
  rewrite substring_back. reflexivity.
Qed.

End JSFacts.

(** ** The metadata service: create *)

Module CreateFacts.
Import UploadRoute UploadTerms JSTerms JSFacts Samples.

Lemma setPromise_id (w : World) :
  dbConnectionPromise w = true → setPromise true w = w.
Proof. destruct w; simpl; intros ->; reflexivity. Qed.

Lemma ensureDbConnection_connects (connect : Outcome unit) (w : World) :
  connects connect w →
  ensureDbConnection connect w = (true, setPromise true w, connectCalls w).
Proof.
  unfold ensureDbConnection, connectCalls.
  intros [H | [u ->]].
  - rewrite H, setPromise_id; auto.
  - destruct (dbConnectionPromise w) eqn:E; [|reflexivity].
    rewrite setPromise_id; auto.
Qed.

Lemma ensureDbConnection_world (connect : Outcome unit) (w : World) :
  ∃ b p cs, ensureDbConnection connect w = (b, setPromise p w, cs).
Proof.
  unfold ensureDbConnection.
  destruct (dbConnectionPromise w) eqn:E.
  - exists true, true, []. rewrite setPromise_id; auto.
  - destruct connect; eauto.
Qed.

(** Once the body is complete and the record is created, what is left of
    [POST] is the size check and the account update. *)
Lemma POST_after_create (o : PostAnswers) (w : World)
    (name c sz mime wallet : string) (stamp : string * Z * option Z) :
  postJson o = Returns (uploadOf name c sz mime wallet) →
  name ≠ "" → c ≠ "" → sz ≠ "" → mime ≠ "" → wallet ≠ "" →
  connects (postConnect o) w →
  postCreate o = Returns stamp →
  POST o w =
  let file := fileOf name c sz mime wallet stamp in
  let stored := setFiles (files w ++ [file]) (setPromise true w) in
  let sent := connectCalls w ++ [FileCreate name c sz mime wallet] in
  match JS.parseInt sz with
  | None => answer (json (ErrorBody "Invalid file size") 400) stored sent
  | Some sizeInBytes =>
      let sent' := sent ++ [UserUpsertInc wallet sizeInBytes] in
      match postUpsert o with
      | Throws e => answer (postCaught e (postClock o)) stored sent'
      | Returns false =>
          answer (json (ErrorBody "Failed to update user storage") 500)
                 stored sent'
      | Returns true =>
          answer (json (CreatedBody file) 200)
            (setCache (delete (cacheKeyOf wallet) (fileListCache stored))
               (setUsers (upsertInc wallet sizeInBytes (users stored)) stored))
            sent'
      end
  end.
Proof.
  intros Hjson Hname Hcid Hsize Hmime Hwallet Hconnect Hcreate.
  unfold POST. rewrite Hjson.
  cbn [uploadOf reqFileName reqCid reqSize reqMimeType reqWalletAddress].
  rewrite !truthy_Some by assumption. cbn [negb orb default].
  rewrite ensureDbConnection_connects by assumption. cbn [negb].
  rewrite Hcreate. unfold fileOf, create.
  destruct stamp as [[id created] updated]. reflexivity.
Qed.

Lemma upsertInc_same (wallet : string) (n : Z) (us : gmap string Z) :
  upsertInc wallet n us !! wallet = Some (default 0 (us !! wallet) + n).
Proof. unfold upsertInc. apply lookup_insert_eq. Qed.

Lemma upsertInc_other (wallet other : string) (n : Z) (us : gmap string Z) :
  other ≠ wallet → upsertInc wallet n us !! other = us !! other.
Proof. intros H. unfold upsertInc. apply lookup_insert_ne. congruence. Qed.

(** C1.  A create whose body carries the five fields, whose size parses
    as the integer [n], a safe integer (the range in which the Number
    that [parseInt] returns is that integer), and whose database calls
    succeed answers 200 and leaves the wallet's [totalStorageUsed] at its
    former value (0 when the wallet had no account) plus [n]; the account
    exists afterwards, the update is one upsert call, and no other
    account changes.  When instead the upsert yields no document, the
    answer is 500. *)
Theorem POST_adds_size_to_totalStorageUsed
    (o : PostAnswers) (w : World) (name c sz mime wallet : string)
    (stamp : string * Z * option Z) (n : Z) :
  postJson o = Returns (uploadOf name c sz mime wallet) →
  name ≠ "" → c ≠ "" → mime ≠ "" → wallet ≠ "" →
  JS.parseInt sz = Some n →
  JS.isSafeInteger n →
  connects (postConnect o) w →
  postCreate o = Returns stamp →
  (postUpsert o = Returns true →
     status (response (POST o w)) = 200
     ∧ totalStorageUsed wallet (world (POST o w))
       = Some (default 0 (totalStorageUsed wallet w) + n)
     ∧ (totalStorageUsed wallet w = None →
        totalStorageUsed wallet (world (POST o w)) = Some n)
     ∧ (∀ other, other ≠ wallet →
        totalStorageUsed other (world (POST o w)) = totalStorageUsed other w)
     ∧ calls (POST o w)
       = connectCalls w ++ [FileCreate name c sz mime wallet;
                            UserUpsertInc wallet n])
  ∧ (postUpsert o = Returns false →
     response (POST o w)
     = json (ErrorBody "Failed to update user storage") 500).
Proof.
  intros Hjson Hname Hcid Hmime Hwallet Hparse _ Hconnect Hcreate.
  pose proof (parseInt_nonempty _ _ Hparse) as Hsize.
  rewrite (POST_after_create o w name c sz mime wallet stamp) by assumption.
  cbv zeta. rewrite Hparse. split; intros ->; [|reflexivity].
  unfold totalStorageUsed. cbn.
  split; [reflexivity|]. split; [apply upsertInc_same|].
  split; [|split].
  - intros Hnone. rewrite upsertInc_same, Hnone. reflexivity.
  - intros other Hother. now apply upsertInc_other.
  - now rewrite <- app_assoc.
Qed.

Lemma POST_adds_size_witness :
  totalStorageUsed "0xabc"
    (world (POST (samplePost "500" (Returns true)) emptyWorld)) = Some 500
  ∧ response (POST (samplePost "500" (Returns false)) emptyWorld)
    = json (ErrorBody "Failed to update user storage") 500.
Proof.
  assert (Hsafe : JS.isSafeInteger 500).
  { unfold JS.isSafeInteger, JS.MIN_SAFE_INTEGER, JS.MAX_SAFE_INTEGER. lia. }
  split.
  - refine (proj1 (proj2 (proj2 (proj1
      (POST_adds_size_to_totalStorageUsed
         (samplePost "500" (Returns true)) emptyWorld
         "a.txt" "QmA" "500" "text/plain" "0xabc" sampleStamp 500
         _ _ _ _ _ _ Hsafe _ _) _))) _);
      solve [reflexivity | discriminate | right; exists tt; reflexivity].
  - refine (proj2
      (POST_adds_size_to_totalStorageUsed
         (samplePost "500" (Returns false)) emptyWorld
         "a.txt" "QmA" "500" "text/plain" "0xabc" sampleStamp 500
         _ _ _ _ _ _ Hsafe _ _) _);
      solve [reflexivity | discriminate | right; exists tt; reflexivity].
Defined.

(** C2.  A create whose body carries the five fields but whose size does
    not parse answers 400, Invalid file size, after the record has been
    stored: the new document is in the collection when the handler
    returns, and neither the accounts nor the list cache have changed. *)
Theorem POST_invalid_size_keeps_record
    (o : PostAnswers) (w : World) (name c sz mime wallet : string)
    (stamp : string * Z * option Z) :
  postJson o = Returns (uploadOf name c sz mime wallet) →
  name ≠ "" → c ≠ "" → sz ≠ "" → mime ≠ "" → wallet ≠ "" →
  JS.parseInt sz = None →
  connects (postConnect o) w →
  postCreate o = Returns stamp →
  response (POST o w) = json (ErrorBody "Invalid file size") 400
  ∧ files (world (POST o w)) = files w ++ [fileOf name c sz mime wallet stamp]
  ∧ users (world (POST o w)) = users w
  ∧ fileListCache (world (POST o w)) = fileListCache w
  ∧ calls (POST o w) = connectCalls w ++ [FileCreate name c sz mime wallet].
Proof.
  intros Hjson Hname Hcid Hsize Hmime Hwallet Hparse Hconnect Hcreate.
  rewrite (POST_after_create o w name c sz mime wallet stamp) by assumption.
  cbv zeta. rewrite Hparse. cbn. auto.
Qed.

Lemma POST_invalid_size_witness :
  response (POST (samplePost "abc" (Returns true)) emptyWorld)
  = json (ErrorBody "Invalid file size") 400
  ∧ files (world (POST (samplePost "abc" (Returns true)) emptyWorld))
    = [fileOf "a.txt" "QmA" "abc" "text/plain" "0xabc" sampleStamp].
Proof.
  pose proof (POST_invalid_size_keeps_record
    (samplePost "abc" (Returns true)) emptyWorld
    "a.txt" "QmA" "abc" "text/plain" "0xabc" sampleStamp) as H.
  destruct H as (Hr & Hf & _);
    try solve [reflexivity | discriminate | right; exists tt; reflexivity].
  split; [exact Hr | exact Hf].
Defined.

(** C10.  A size string made of a part that parses as the integer [n],
    a safe integer (the range in which the Number that [parseInt] returns
    is that integer), and of a rest that does not start with a digit is
    accepted: the create answers 200, the record is stored with the
    string as it came, and [totalStorageUsed] moves by [n]; for a
    negative [n] the counter afterwards is strictly below the counter
    before (0 when there was no account). *)
Theorem POST_accepts_any_parsable_size
    (o : PostAnswers) (w : World) (name c lead rest mime wallet : string)
    (stamp : string * Z * option Z) (n : Z) :
  postJson o = Returns (uploadOf name c (lead +:+ rest) mime wallet) →
  name ≠ "" → c ≠ "" → mime ≠ "" → wallet ≠ "" →
  JS.parseInt lead = Some n →
  JS.isSafeInteger n →
  noDigitAhead rest →
  postSucceeds o w stamp →
  JS.parseInt (lead +:+ rest) = Some n
  ∧ status (response (POST o w)) = 200
  ∧ files (world (POST o w))
    = files w ++ [fileOf name c (lead +:+ rest) mime wallet stamp]
  ∧ totalStorageUsed wallet (world (POST o w))
    = Some (default 0 (totalStorageUsed wallet w) + n)
  ∧ (n < 0 →
     default 0 (totalStorageUsed wallet (world (POST o w)))
     < default 0 (totalStorageUsed wallet w)).
Proof.
  intros Hjson Hname Hcid Hmime Hwallet Hlead _ Hrest
    (Hconnect & Hcreate & Hupsert).
  pose proof (parseInt_app lead rest n Hrest Hlead) as Hparse.
  pose proof (parseInt_nonempty _ _ Hparse) as Hsize.
  rewrite (POST_after_create o w name c (lead +:+ rest) mime wallet stamp)
    by assumption.
  cbv zeta. rewrite Hparse, Hupsert. unfold totalStorageUsed. cbn.
  rewrite upsertInc_same. cbn. repeat split; lia.
Qed.

Lemma POST_accepts_negative_witness :
  files (world (POST (samplePost "-100" (Returns true)) emptyWorld))
  = [fileOf "a.txt" "QmA" "-100" "text/plain" "0xabc" sampleStamp]
  ∧ totalStorageUsed "0xabc"
      (world (POST (samplePost "-100" (Returns true)) emptyWorld))
    = Some (-100).
Proof.
  pose proof (POST_accepts_any_parsable_size
    (samplePost "-100" (Returns true)) emptyWorld
    "a.txt" "QmA" "-100" "" "text/plain" "0xabc" sampleStamp (-100)) as H.
  destruct H as (_ & _ & Hf & Ht & _);
    try solve [reflexivity | discriminate | exact I].
  { unfold JS.isSafeInteger, JS.MIN_SAFE_INTEGER, JS.MAX_SAFE_INTEGER. lia. }
  { split; [right; exists tt; reflexivity | split; reflexivity]. }
  split; [exact Hf | exact Ht].
Defined.

(** The same with text after the digits: [12abc] counts as 12. *)
Example POST_accepts_trailing_text :
  status (response (POST (samplePost "12abc" (Returns true)) emptyWorld)) = 200
  ∧ totalStorageUsed "0xabc"
      (world (POST (samplePost "12abc" (Returns true)) emptyWorld))
    = Some 12.
Proof. split; vm_compute; reflexivity. Qed.

End CreateFacts.

(** ** The metadata service: delete *)

Module DeleteFacts.
Import UploadRoute UploadTerms JSTerms JSFacts Samples CreateFacts.

(** [deleteOne] takes out the document [findOne] returns, the first one
    that matches, and nothing else. *)
Lemma deleteOne_split (c wallet : string) (fs : list FileDoc) (file : FileDoc) :
  findOne c wallet fs = Some file →
  ∃ before after,
    fs = before ++ file :: after
    ∧ deleteOne c wallet fs = before ++ after
    ∧ findOne c wallet before = None.
Proof.
  induction fs as [|f fs IH]; simpl; [discriminate |].
  destruct (matches c wallet f) eqn:E.
  - intros [= ->]. exists [], fs. auto.
  - intros H. destruct (IH H) as (before & after & -> & Hd & Hn).
    exists (f :: before), after. simpl. rewrite E, Hd. auto.
Qed.

Lemma inc_same (wallet : string) (n : Z) (us : gmap string Z) :
  inc wallet n us !! wallet = (fun total => total + n) <$> us !! wallet.
Proof. unfold inc. apply lookup_alter_eq. Qed.

Lemma inc_other (wallet other : string) (n : Z) (us : gmap string Z) :
  other ≠ wallet → inc wallet n us !! other = us !! other.
Proof. intros H. unfold inc. apply lookup_alter_ne. congruence. Qed.

(** With both parameters given and the database answering, [DELETE] is
    decided by [findOne]. *)
Lemma DELETE_after_connect (o : DeleteAnswers) (w : World) (c wallet : string) :
  c ≠ "" → wallet ≠ "" → deleteSucceeds o w →
  DELETE o (Some c) (Some wallet) w =
  let sent := connectCalls w ++ [FileFindOne c wallet] in
  match findOne c wallet (files w) with
  | None =>
      answer (json (ErrorBody "File not found or unauthorized") 404)
             (setPromise true w) sent
  | Some file =>
      let sizeInBytes := JS.orZero (JS.parseInt (size file)) in
      answer (json SuccessBody 200)
        (setCache (delete (cacheKeyOf wallet) (fileListCache w))
           (setUsers (inc wallet (- sizeInBytes) (users w))
              (setFiles (deleteOne c wallet (files w)) (setPromise true w))))
        ((sent ++ [FileDeleteOne c wallet]) ++ [UserInc wallet (- sizeInBytes)])
  end.
Proof.
  intros Hc Hw (Hconnect & Hfind & Hdel & Hupd).
  unfold DELETE. rewrite !truthy_Some by assumption. cbn [negb orb default].
  rewrite ensureDbConnection_connects by assumption. cbn [negb].
  rewrite Hfind, Hdel, Hupd. cbn.
  destruct (findOne c wallet (files w)); reflexivity.
Qed.

Lemma matches_wallet (c wallet : string) (f : FileDoc) :
  matches c wallet f = true → cid f = c ∧ walletAddress f = wallet.
Proof.
  unfold matches. intros H. apply andb_prop in H as [H1 H2].
  split; eapply bool_decide_eq_true_1; eassumption.
Qed.

Lemma matches_fields (f : FileDoc) : matches (cid f) (walletAddress f) f = true.
Proof. unfold matches. now rewrite !bool_decide_eq_true_2. Qed.

Lemma findOne_none (c wallet : string) (fs : list FileDoc) :
  (∀ f, f ∈ fs → cid f = c → walletAddress f ≠ wallet) →
  findOne c wallet fs = None.
Proof.
  induction fs as [|f fs IH]; intros H; cbn; [reflexivity |].
  destruct (matches c wallet f) eqn:E.
  - apply matches_wallet in E as [Ec Ew].
    now destruct (H f (list_elem_of_here _ _) Ec).
  - apply IH. intros g Hg. apply H. now apply list_elem_of_further.
Qed.

(** Where no two records share content identifier and wallet, [findOne]
    returns the record that has them and [deleteOne] leaves none. *)
Lemma unique_record (fs : list FileDoc) (file : FileDoc) :
  uniqueKeys fs →
  file ∈ fs →
  findOne (cid file) (walletAddress file) fs = Some file
  ∧ ∀ g, g ∈ deleteOne (cid file) (walletAddress file) fs →
         recordKey g ≠ recordKey file.
Proof.
  unfold uniqueKeys.
  induction fs as [|f fs IH]; intros Hu Hin; [now apply elem_of_nil in Hin |].
  rewrite fmap_cons in Hu. apply NoDup_cons in Hu as [Hf Hu].
  cbn [findOne deleteOne].
  destruct (matches (cid file) (walletAddress file) f) eqn:E.
  - apply matches_wallet in E as [Ec Ew].
    assert (Hk : recordKey f = recordKey file) by (unfold recordKey; congruence).
    apply elem_of_cons in Hin as [-> | Hin].
    + split; [reflexivity |].
      intros g Hg Hkey. apply Hf. rewrite <- Hkey.
      apply list_elem_of_fmap. now exists g.
    + destruct Hf. rewrite Hk. apply list_elem_of_fmap. now exists file.
  - apply elem_of_cons in Hin as [-> | Hin];
      [now rewrite matches_fields in E |].
    destruct (IH Hu Hin) as [Hfind Hgone]. split; [exact Hfind |].
    intros g Hg. apply elem_of_cons in Hg as [-> | Hg]; [|now apply Hgone].
    unfold recordKey. intros [= Hc Hw].
    unfold matches in E. now rewrite !bool_decide_eq_true_2 in E.
Qed.

(** C3.  The store holding no two records for one content identifier and
    wallet, a delete for the content identifier and wallet of a stored
    record, the database answering, returns 200; that record is taken out
    of the collection, nothing else is, and no record with that content
    identifier and wallet is left; the wallet's [totalStorageUsed] goes
    down by the size of the record as [parseInt] reads it (a safe
    integer), by zero when it does not parse, a wallet without account
    staying without one, and no other account changes.  The next delete
    with the same two parameters returns 404. *)
Theorem DELETE_removes_the_record
    (o o' : DeleteAnswers) (w : World) (c wallet : string) (file : FileDoc) :
  c ≠ "" → wallet ≠ "" →
  uniqueKeys (files w) →
  file ∈ files w → cid file = c → walletAddress file = wallet →
  safeSize (size file) →
  deleteSucceeds o w →
  deleteSucceeds o' (world (DELETE o (Some c) (Some wallet) w)) →
  status (response (DELETE o (Some c) (Some wallet) w)) = 200
  ∧ (∃ before after,
       files w = before ++ file :: after
       ∧ files (world (DELETE o (Some c) (Some wallet) w)) = before ++ after)
  ∧ (∀ g, g ∈ files (world (DELETE o (Some c) (Some wallet) w)) →
          ¬ (cid g = c ∧ walletAddress g = wallet))
  ∧ totalStorageUsed wallet (world (DELETE o (Some c) (Some wallet) w))
    = (fun total => total - JS.orZero (JS.parseInt (size file)))
        <$> totalStorageUsed wallet w
  ∧ (∀ other, other ≠ wallet →
     totalStorageUsed other (world (DELETE o (Some c) (Some wallet) w))
     = totalStorageUsed other w)
  ∧ status (response (DELETE o' (Some c) (Some wallet)
                        (world (DELETE o (Some c) (Some wallet) w)))) = 404.
Proof.
  intros Hc Hw Hu Hin <- <- _ Ho Ho'.
  destruct (unique_record (files w) file Hu Hin) as [Hfind Hgone].
  rewrite (DELETE_after_connect o' _ _ _ Hc Hw Ho').
  revert Ho'. rewrite (DELETE_after_connect o w _ _ Hc Hw Ho).
  cbv zeta. rewrite Hfind. intros _. cbn -[inc].
  assert (Hleft : ∀ g,
    g ∈ deleteOne (cid file) (walletAddress file) (files w) →
    ¬ (cid g = cid file ∧ walletAddress g = walletAddress file)).
  { intros g Hg [Ec Ew]. apply (Hgone g Hg). unfold recordKey. congruence. }
  split; [reflexivity |]. split.
  { destruct (deleteOne_split _ _ _ _ Hfind) as (before & after & E1 & E2 & _).
    now exists before, after. }
  split; [exact Hleft |]. split.
  { unfold totalStorageUsed, setCache, setUsers. cbn [users]. rewrite inc_same.
    destruct (users w !! walletAddress file); cbn; f_equal; lia. }
  split.
  { intros other Hother. unfold totalStorageUsed, setCache, setUsers.
    cbn [users]. now apply inc_other. }
  rewrite findOne_none; [reflexivity |].
  intros g Hg Ec Ew. now apply (Hleft g Hg).
Qed.

Lemma DELETE_removes_the_record_witness :
  status (response (DELETE sampleDelete (Some "QmA") (Some "0xabc")
    (world (POST (samplePost "500" (Returns true)) emptyWorld)))) = 200
  ∧ totalStorageUsed "0xabc"
      (world (DELETE sampleDelete (Some "QmA") (Some "0xabc")
        (world (POST (samplePost "500" (Returns true)) emptyWorld))))
    = Some 0
  ∧ status (response (DELETE sampleDelete (Some "QmA") (Some "0xabc")
      (world (DELETE sampleDelete (Some "QmA") (Some "0xabc")
        (world (POST (samplePost "500" (Returns true)) emptyWorld)))))) = 404.
Proof.
  assert (Hu : uniqueKeys
    (files (world (POST (samplePost "500" (Returns true)) emptyWorld)))).
  { apply NoDup_singleton. }
  assert (Hin : sampleFile "500"
    ∈ files (world (POST (samplePost "500" (Returns true)) emptyWorld))).
  { apply list_elem_of_here. }
  assert (Hsafe : safeSize (size (sampleFile "500"))).
  { intros n H. vm_compute in H. injection H as <-.
    unfold JS.isSafeInteger, JS.MIN_SAFE_INTEGER, JS.MAX_SAFE_INTEGER. lia. }
  assert (Hd : deleteSucceeds sampleDelete
    (world (POST (samplePost "500" (Returns true)) emptyWorld))).
  { split; [left; reflexivity | repeat split]. }
  assert (Hd' : deleteSucceeds sampleDelete
    (world (DELETE sampleDelete (Some "QmA") (Some "0xabc")
      (world (POST (samplePost "500" (Returns true)) emptyWorld))))).
  { split; [left; reflexivity | repeat split]. }
  destruct (DELETE_removes_the_record sampleDelete sampleDelete
    (world (POST (samplePost "500" (Returns true)) emptyWorld))
    "QmA" "0xabc" (sampleFile "500")
    ltac:(discriminate) ltac:(discriminate) Hu Hin eq_refl eq_refl Hsafe
    Hd Hd')
    as (H200 & _ & _ & Htotal & _ & H404).
  split; [exact H200 |]. split; [exact Htotal | exact H404].
Defined.

End DeleteFacts.

(** ** The metadata service: list and its cache *)

Module ListFacts.
Import UploadRoute UploadSteps UploadTerms JSTerms JSFacts Samples CreateFacts.

Lemma cacheKeyOf_inj (a b : string) : cacheKeyOf a = cacheKeyOf b → a = b.
Proof. unfold cacheKeyOf. simpl. intros H. now injection H. Qed.

(** The test of the read path: an entry is there and it is younger than
    30000 milliseconds. *)
Lemma cacheHit_iff (now : Z) (entry : option CacheEntry) (e : CacheEntry) :
  cacheHit now entry = Some e ↔ entry = Some e ∧ now - timestamp e < 30000.
Proof.
  unfold cacheHit, CACHE_TTL. destruct entry as [d|].
  - destruct (Z.ltb_spec (now - timestamp d) (30 * 1000)).
    + split; [intros [= ->]; split; [reflexivity | lia] | intros [[= ->] _]; reflexivity].
    + split; [discriminate | intros [[= ->] ?]; lia].
  - split; [discriminate | intros [[=] _]].
Qed.

Lemma GET_hit (o : GetAnswers) (w : World) (wallet : string) (e : CacheEntry) :
  wallet ≠ "" →
  cacheHit (getNowCheck o) (fileListCache w !! cacheKeyOf wallet) = Some e →
  GET o (Some wallet) w = answer (json (ListBody (data e)) 200) w [].
Proof.
  intros Hw Hhit. unfold GET. rewrite truthy_Some by assumption.
  cbn [negb]. change (default "" (Some wallet)) with wallet. cbv zeta.
  now rewrite Hhit.
Qed.

(** On a miss the handler goes to the database. *)
Lemma GET_miss (o : GetAnswers) (w : World) (wallet : string) :
  wallet ≠ "" →
  cacheHit (getNowCheck o) (fileListCache w !! cacheKeyOf wallet) = None →
  GET o (Some wallet) w =
  let '(connected, w1, cs1) := ensureDbConnection (getConnect o) w in
  if negb connected then
    answer (json (ErrorBody "Failed to connect to database") 503) w1 cs1
  else
    match getFind o with
    | Throws e => answer (getCaught e (getClock o)) w1 (cs1 ++ [FileFind wallet])
    | Returns _ =>
        answer (json (ListBody (freshList wallet w)) 200)
          (setCache (<[cacheKeyOf wallet :=
                       {| data := freshList wallet w;
                          timestamp := getNowStore o |}]> (fileListCache w)) w1)
          (cs1 ++ [FileFind wallet])
    end.
Proof.
  intros Hw Hmiss. unfold GET. rewrite truthy_Some by assumption.
  cbn [negb]. change (default "" (Some wallet)) with wallet. cbv zeta.
  rewrite Hmiss.
  destruct (ensureDbConnection_world (getConnect o) w) as (b & p & cs & ->).
  destruct b; cbn [negb]; [|reflexivity].
  destruct (getFind o); reflexivity.
Qed.

Lemma GET_miss_succeeds (o : GetAnswers) (w : World) (wallet : string) :
  wallet ≠ "" →
  cacheHit (getNowCheck o) (fileListCache w !! cacheKeyOf wallet) = None →
  getSucceeds o w →
  GET o (Some wallet) w =
  answer (json (ListBody (freshList wallet w)) 200)
    (setCache (<[cacheKeyOf wallet :=
                 {| data := freshList wallet w;
                    timestamp := getNowStore o |}]> (fileListCache w))
       (setPromise true w))
    (connectCalls w ++ [FileFind wallet]).
Proof.
  intros Hw Hmiss [Hc Hf]. rewrite GET_miss by assumption.
  rewrite ensureDbConnection_connects by assumption. cbn [negb].
  now rewrite Hf.
Qed.

(** What each handler can do to the cache. *)
Lemma POST_cache (o : PostAnswers) (w : World) :
  fileListCache (world (POST o w)) = fileListCache w
  ∨ ∃ wallet, fileListCache (world (POST o w))
              = delete (cacheKeyOf wallet) (fileListCache w).
Proof.
  unfold POST.
  destruct (postJson o) as [req|]; [|left; reflexivity].
  destruct (negb (JS.truthy (reqWalletAddress req))); [left; reflexivity |].
  match goal with |- context [if ?b then _ else _] => destruct b end;
    [left; reflexivity |].
  destruct (ensureDbConnection_world (postConnect o) w) as (b & p & cs & ->).
  destruct b; cbn [negb]; [|left; reflexivity].
  destruct (postCreate o) as [[[id created] updated]|]; [|left; reflexivity].
  destruct (JS.parseInt _); [|left; reflexivity].
  destruct (postUpsert o) as [[]|]; try (left; reflexivity).
  right. eexists. reflexivity.
Qed.

Lemma DELETE_cache (o : DeleteAnswers) (cidParam walletParam : option string)
    (w : World) :
  fileListCache (world (DELETE o cidParam walletParam w)) = fileListCache w
  ∨ ∃ wallet, fileListCache (world (DELETE o cidParam walletParam w))
              = delete (cacheKeyOf wallet) (fileListCache w).
Proof.
  unfold DELETE.
  match goal with |- context [if ?b then _ else _] => destruct b end;
    [left; reflexivity |].
  destruct (ensureDbConnection_world (delConnect o) w) as (b & p & cs & ->).
  destruct b; cbn [negb]; [|left; reflexivity].
  destruct (delFindOne o); [|left; reflexivity].
  destruct (findOne _ _ _); [|left; reflexivity].
  destruct (delDeleteOne o); [|left; reflexivity].
  destruct (delUpdate o); [|left; reflexivity].
  right. eexists. reflexivity.
Qed.

Lemma GET_cache (o : GetAnswers) (walletParam : option string) (w : World) :
  fileListCache (world (GET o walletParam w)) = fileListCache w
  ∨ ∃ wallet, walletParam = Some wallet
      ∧ fileListCache (world (GET o walletParam w))
        = <[cacheKeyOf wallet :=
              {| data := freshList wallet w; timestamp := getNowStore o |}]>
            (fileListCache w).
Proof.
  unfold GET.
  destruct (JS.truthy walletParam) eqn:Et; cbn [negb]; [|left; reflexivity].
  apply truthy_inv in Et as (wallet & -> & Hw).
  change (default "" (Some wallet)) with wallet. cbv zeta.
  destruct (cacheHit _ _); [left; reflexivity |].
  destruct (ensureDbConnection_world (getConnect o) w) as (b & p & cs & ->).
  destruct b; cbn [negb]; [|left; reflexivity].
  destruct (getFind o); [|left; reflexivity].
  right. exists wallet. split; reflexivity.
Qed.

(** A create or delete that answers 200 has dropped the wallet's entry
    and leaves the connection memoised. *)
Lemma mutation_drops_entry (r : Request) (w : World) (wallet : string) :
  mutates wallet r →
  status (response (handle r w)) = 200 →
  fileListCache (world (handle r w)) !! cacheKeyOf wallet = None
  ∧ dbConnectionPromise (world (handle r w)) = true
  ∧ wallet ≠ "".
Proof.
  destruct r as [o | o wp | o cp wp]; cbn [mutates handle]; [| tauto |].
  - intros (req & Hreq & Hwal). unfold POST. rewrite Hreq, Hwal.
    destruct (JS.truthy (Some wallet)) eqn:Et; cbn [negb]; [|discriminate].
    apply truthy_inv in Et as (? & [= <-] & Hne).
    match goal with |- context [if ?b then _ else _] => destruct b end;
      [discriminate |].
    unfold ensureDbConnection.
    destruct (dbConnectionPromise w) eqn:Ep; [|destruct (postConnect o)];
      cbn [negb]; try discriminate;
      (destruct (postCreate o) as [[[id created] updated]|]; [|destruct e; discriminate]);
      (destruct (JS.parseInt _); [|discriminate]);
      (destruct (postUpsert o) as [[]|]; [| discriminate | destruct e; discriminate]);
      intros _; cbn; rewrite lookup_delete_eq; auto.
  - intros ->. unfold DELETE.
    destruct (JS.truthy cp); cbn [negb orb]; [|discriminate].
    destruct (JS.truthy (Some wallet)) eqn:Et; cbn [negb]; [|discriminate].
    apply truthy_inv in Et as (? & [= <-] & Hne).
    unfold ensureDbConnection.
    destruct (dbConnectionPromise w) eqn:Ep; [|destruct (delConnect o)];
      cbn [negb]; try discriminate;
      (destruct (delFindOne o); [|discriminate]);
      (destruct (findOne _ _ _); [|discriminate]);
      (destruct (delDeleteOne o); [|discriminate]);
      (destruct (delUpdate o); [|discriminate]);
      intros _; cbn; rewrite lookup_delete_eq; auto.
Qed.

Lemma serve_snoc (rs : list Request) (r : Request) (w : World) :
  serve (rs ++ [r]) w = world (handle r (serve rs w)).
Proof. unfold serve. now rewrite foldl_app. Qed.

(** *** Lists in two halves *)

(** The two halves, one right after the other, are [GET]. *)
Lemma split_is_GET (o : GetAnswers) (walletParam : option string) (w : World) :
  GET o walletParam w
  = match GET_begin o walletParam w with
    | Answered r => r
    | Suspended wallet found w1 cs => GET_finish o wallet found cs w1
    end.
Proof.
  unfold GET, GET_begin, GET_finish.
  destruct (negb (JS.truthy walletParam)); [reflexivity |]. cbv zeta.
  destruct (cacheHit _ _); [reflexivity |].
  destruct (ensureDbConnection_world (getConnect o) w) as (b & p & cs & ->).
  destruct b; cbn [negb]; [|reflexivity].
  destruct (getFind o); reflexivity.
Qed.

(** The first half writes neither the cache nor the database, and what
    it finds is what the database holds for the wallet. *)
Lemma GET_begin_cases (o : GetAnswers) (walletParam : option string)
    (w : World) :
  match GET_begin o walletParam w with
  | Answered r =>
      fileListCache (world r) = fileListCache w ∧ files (world r) = files w
  | Suspended wallet found w1 cs =>
      walletParam = Some wallet
      ∧ found = find wallet (files w)
      ∧ fileListCache w1 = fileListCache w ∧ files w1 = files w
  end.
Proof.
  unfold GET_begin.
  destruct (JS.truthy walletParam) eqn:Et; cbn [negb]; [|split; reflexivity].
  apply truthy_inv in Et as (wallet & -> & Hw).
  change (default "" (Some wallet)) with wallet. cbv zeta.
  destruct (cacheHit _ _); [split; reflexivity |].
  destruct (ensureDbConnection_world (getConnect o) w) as (b & p & cs & ->).
  destruct b; cbn [negb]; [|split; reflexivity].
  destruct (getFind o); [|split; reflexivity].
  repeat split.
Qed.

Lemma run_snoc (ss : list Step) (s : Step) (st : State) :
  run (ss ++ [s]) st = step s (run ss st).
Proof. unfold run. now rewrite foldl_app. Qed.

(** Requests served one after the other are a run of whole steps, which
    leaves the waiting lists where they are. *)
Lemma serve_is_run (rs : list Request) (w : World) (ps : list Pending) :
  run (Whole <$> rs) (w, ps) = (serve rs w, ps).
Proof.
  induction rs as [|r rs IH] using rev_ind; [reflexivity |].
  rewrite fmap_app. change (Whole <$> [r]) with [Whole r].
  now rewrite run_snoc, IH, serve_snoc.
Qed.

(** What a whole request can do to the cache of a wallet: leave the
    entry, drop it, or (a list) store the list it computes. *)
Lemma handle_cache (r : Request) (w : World) (wallet : string) :
  fileListCache (world (handle r w)) !! cacheKeyOf wallet
  = fileListCache w !! cacheKeyOf wallet
  ∨ fileListCache (world (handle r w)) !! cacheKeyOf wallet = None
  ∨ ∃ o, r = List o (Some wallet)
      ∧ fileListCache (world (handle r w)) !! cacheKeyOf wallet
        = Some {| data := freshList wallet w; timestamp := getNowStore o |}.
Proof.
  destruct r as [o | o wp | o cp wp]; cbn [handle].
  - destruct (POST_cache o w) as [-> | [x ->]]; [now left |].
    destruct (decide (cacheKeyOf x = cacheKeyOf wallet)) as [E | E].
    + right. left. rewrite E. apply lookup_delete_eq.
    + left. now apply lookup_delete_ne.
  - destruct (GET_cache o wp w) as [-> | (x & -> & ->)]; [now left |].
    destruct (decide (cacheKeyOf x = cacheKeyOf wallet)) as [E | E].
    + right. right. exists o. rewrite E, lookup_insert_eq.
      apply cacheKeyOf_inj in E as ->. split; reflexivity.
    + left. now apply lookup_insert_ne.
  - destruct (DELETE_cache o cp wp w) as [-> | [x ->]]; [now left |].
    destruct (decide (cacheKeyOf x = cacheKeyOf wallet)) as [E | E].
    + right. left. rewrite E. apply lookup_delete_eq.
    + left. now apply lookup_delete_ne.
Qed.

(** From a state without entry for the wallet and without list of the
    wallet waiting, whatever steps follow: an entry of the wallet holds
    the list of the database as it was after some of these steps, and
    so does what a waiting list of the wallet has found. *)
Lemma entries_after (st0 : State) (wallet : string) (ss : list Step) :
  fileListCache (fst st0) !! cacheKeyOf wallet = None →
  (∀ p, p ∈ snd st0 → pendingWallet p ≠ wallet) →
  (∀ e, fileListCache (fst (run ss st0)) !! cacheKeyOf wallet = Some e →
     ∃ ss1 ss2, ss = ss1 ++ ss2
       ∧ data e = freshList wallet (fst (run ss1 st0)))
  ∧ (∀ p, p ∈ snd (run ss st0) → pendingWallet p = wallet →
     ∃ ss1 ss2, ss = ss1 ++ ss2
       ∧ pendingFound p = find wallet (files (fst (run ss1 st0)))).
Proof.
  intros Hnone Hps.
  induction ss as [|s ss [IHc IHp]] using rev_ind.
  - cbn. split.
    + intros e H. rewrite Hnone in H. discriminate.
    + intros p Hp Hw. now destruct (Hps p Hp).
  - rewrite run_snoc.
    assert (Hc : ∀ e,
      fileListCache (fst (run ss st0)) !! cacheKeyOf wallet = Some e →
      ∃ ss1 ss2, ss ++ [s] = ss1 ++ ss2
        ∧ data e = freshList wallet (fst (run ss1 st0))).
    { intros e H. destruct (IHc e H) as (ss1 & ss2 & -> & He).
      exists ss1, (ss2 ++ [s]). split; [now rewrite <- app_assoc | exact He]. }
    assert (Hp : ∀ p, p ∈ snd (run ss st0) → pendingWallet p = wallet →
      ∃ ss1 ss2, ss ++ [s] = ss1 ++ ss2
        ∧ pendingFound p = find wallet (files (fst (run ss1 st0)))).
    { intros p H Hw. destruct (IHp p H Hw) as (ss1 & ss2 & -> & He).
      exists ss1, (ss2 ++ [s]). split; [now rewrite <- app_assoc | exact He]. }
    clear IHc IHp.
    destruct s as [r | o wp | i]; cbn [step].
    + cbn [fst snd]. split; [|exact Hp].
      intros e.
      destruct (handle_cache r (fst (run ss st0)) wallet)
        as [-> | [-> | (o & -> & ->)]]; [apply Hc | discriminate |].
      intros [= <-]. exists ss, [Whole (List o (Some wallet))].
      split; reflexivity.
    + pose proof (GET_begin_cases o wp (fst (run ss st0))) as Hb.
      destruct (GET_begin o wp (fst (run ss st0)))
        as [r | x found w1 cs]; cbn [fst snd].
      * destruct Hb as [-> _]. split; [exact Hc | exact Hp].
      * destruct Hb as (-> & -> & -> & _). split; [exact Hc |].
        intros p Hin Hw. apply elem_of_app in Hin as [Hin | Hin];
          [now apply Hp |].
        apply list_elem_of_singleton in Hin as ->. cbn in Hw |- *. subst x.
        exists ss, [BeginList o (Some wallet)]. split; reflexivity.
    + destruct (snd (run ss st0) !! i) as [p|] eqn:Ei;
        [|split; [exact Hc | exact Hp]].
      cbn [fst snd GET_finish world answer fileListCache setCache]. split.
      * intros e.
        destruct (decide (pendingWallet p = wallet)) as [E | E].
        -- rewrite E, lookup_insert_eq. intros [= <-]. cbn [data].
           destruct (Hp p (list_elem_of_lookup_2 _ _ _ Ei) E)
             as (ss1 & ss2 & Hs & ->).
           exists ss1, ss2. split; [exact Hs | reflexivity].
        -- rewrite lookup_insert_ne; [apply Hc |].
           intros Hk. apply E. now apply cacheKeyOf_inj.
      * intros q Hq. apply Hp.
        eapply list_elem_of_delete_inv. exact Hq.
Qed.

(** C4, as the code has it.  A create or a delete for a wallet that
    answers 200 has removed the wallet's entry from the list cache when
    it returns.  A list for that wallet served next does not answer from
    the cache: it queries the database and, when the query resolves,
    answers with the list computed from the database as the mutation left
    it.  When no list for the wallet is waiting at its database query
    while the mutation runs, then whatever steps follow (whole requests,
    lists that begin, wait and finish), a list that is answered from the
    cache is answered with the list of the database as it was at some
    moment after the mutation. *)
Theorem mutation_invalidates_list_cache (m : Request) (w : World)
    (ps : list Pending) (wallet : string) :
  mutates wallet m →
  status (response (handle m w)) = 200 →
  (∀ p, p ∈ ps → pendingWallet p ≠ wallet) →
  fileListCache (world (handle m w)) !! cacheKeyOf wallet = None
  ∧ (∀ og : GetAnswers,
       calls (GET og (Some wallet) (world (handle m w))) = [FileFind wallet]
       ∧ (getFind og = Returns tt →
          response (GET og (Some wallet) (world (handle m w)))
          = json (ListBody (freshList wallet (world (handle m w)))) 200)
       ∧ (∀ e, getFind og = Throws e →
          status (response (GET og (Some wallet) (world (handle m w)))) = 500))
  ∧ (∀ (ss : list Step) (og : GetAnswers) (e : CacheEntry),
       cacheHit (getNowCheck og)
         (fileListCache (fst (run ss (world (handle m w), ps)))
            !! cacheKeyOf wallet)
       = Some e →
       response (GET og (Some wallet) (fst (run ss (world (handle m w), ps))))
       = json (ListBody (data e)) 200
       ∧ calls (GET og (Some wallet) (fst (run ss (world (handle m w), ps))))
         = []
       ∧ ∃ ss1 ss2,
           ss = ss1 ++ ss2
           ∧ data e
             = freshList wallet (fst (run ss1 (world (handle m w), ps)))).
Proof.
  intros Hm Hok Hps.
  destruct (mutation_drops_entry m w wallet Hm Hok) as (Hnone & Hp & Hw).
  split; [exact Hnone |]. split.
  - intros og.
    rewrite GET_miss by (rewrite ?Hnone; auto).
    unfold ensureDbConnection. rewrite Hp. cbn [negb app].
    destruct (getFind og) as [[]|e]; cbn.
    + split; [reflexivity |]. split; [reflexivity | discriminate].
    + split; [reflexivity |]. split; [discriminate |].
      intros ? _. destruct e; reflexivity.
  - intros ss og e Hhit.
    rewrite (GET_hit og _ wallet e Hw Hhit).
    split; [reflexivity |]. split; [reflexivity |].
    apply cacheHit_iff in Hhit as [Hentry _].
    exact (proj1 (entries_after (world (handle m w), ps) wallet ss Hnone Hps)
             e Hentry).
Qed.

Lemma mutation_invalidates_witness :
  (fileListCache listedOnce !! cacheKeyOf "0xabc"
   = Some {| data := []; timestamp := 0 |}
   ∧ calls (GET (sampleGet 1000) (Some "0xabc")
       (world (POST (samplePost "500" (Returns true)) listedOnce)))
     = [FileFind "0xabc"])
  ∧ (fileListCache uploadedAndListed !! cacheKeyOf "0xabc"
     = Some {| data := [transform (sampleFile "500")]; timestamp := 0 |}
     ∧ response (GET (sampleGet 1000) (Some "0xabc")
         (world (DELETE sampleDelete (Some "QmA") (Some "0xabc")
                   uploadedAndListed)))
       = json (ListBody []) 200).
Proof.
  assert (Hnone : ∀ p : Pending, p ∈ [] → pendingWallet p ≠ "0xabc").
  { intros p Hin. now apply elem_of_nil in Hin. }
  split; (split; [vm_compute; reflexivity |]).
  - refine (proj1 (proj1 (proj2
      (mutation_invalidates_list_cache
         (Create (samplePost "500" (Returns true))) listedOnce [] "0xabc"
         _ _ Hnone))
      (sampleGet 1000))).
    + eexists. split; reflexivity.
    + reflexivity.
  - refine (proj1 (proj2 (proj1 (proj2
      (mutation_invalidates_list_cache
         (Remove sampleDelete (Some "QmA") (Some "0xabc")) uploadedAndListed
         [] "0xabc" _ _ Hnone))
      (sampleGet 1000))) _).
    + reflexivity.
    + reflexivity.
    + reflexivity.
Defined.

(** C4, where the claim as written fails.  A list for the wallet waits at
    its database query, having found no record; a create for the wallet
    answers 200 and drops the entry; the list resumes and stores what it
    found.  The entry now in the cache holds the list of before the
    create, and the lists of the next 30 seconds are answered from it. *)
Lemma list_in_flight_stores_old_list :
  ¬ (∀ (m : Request) (w : World) (ps : list Pending) (wallet : string)
       (ss : list Step) (og : GetAnswers) (e : CacheEntry),
       mutates wallet m →
       status (response (handle m w)) = 200 →
       cacheHit (getNowCheck og)
         (fileListCache (fst (run ss (world (handle m w), ps)))
            !! cacheKeyOf wallet)
       = Some e →
       ∃ ss1 ss2,
         ss = ss1 ++ ss2
         ∧ data e = freshList wallet (fst (run ss1 (world (handle m w), ps)))).
Proof.
  intros H.
  destruct (H (Create (samplePost "500" (Returns true)))
              (fst listInFlight) (snd listInFlight) "0xabc"
              [FinishList 0] (sampleGet 1000)
              {| data := []; timestamp := 0 |})
    as (ss1 & ss2 & Hs & Hd).
  - eexists. split; reflexivity.
  - reflexivity.
  - vm_compute. reflexivity.
  - destruct ss1 as [|s [|s' ss1]].
    + vm_compute in Hd. discriminate Hd.
    + injection Hs as <- _. vm_compute in Hd. discriminate Hd.
    + destruct ss2; discriminate Hs.
Qed.

(** The run behind it, and what the wallet is told a second later. *)
Example list_in_flight_run :
  let st := run [BeginList (sampleGet 0) (Some "0xabc");
                 Whole (Create (samplePost "500" (Returns true)));
                 FinishList 0] (emptyWorld, []) in
  files (fst st) = [sampleFile "500"]
  ∧ snd st = []
  ∧ GET (sampleGet 1000) (Some "0xabc") (fst st)
    = answer (json (ListBody []) 200) (fst st) [].
Proof. vm_compute. repeat split; reflexivity. Qed.

(** C5, as the code has it.  A lookup is a hit exactly when an entry is
    there and the clock minus its timestamp is below 30000.  On a hit the
    cached list is the answer and no call goes to the database.  On a
    miss, the database answering, the list is computed from the database
    and stored under the wallet's key with the timestamp read at that
    moment.  Hence a list that misses, followed within 30 seconds by a
    list for the same wallet that starts when the first has stored its
    entry, the entry still in place, gives the same answer the second
    time with no call to the database. *)
Theorem GET_cache_ttl (o1 o2 : GetAnswers) (w w2 : World) (wallet : string) :
  wallet ≠ "" →
  (∀ now entry e,
     cacheHit now entry = Some e
     ↔ entry = Some e ∧ now - timestamp e < 30000)
  ∧ (∀ e,
       cacheHit (getNowCheck o1) (fileListCache w !! cacheKeyOf wallet) = Some e →
       GET o1 (Some wallet) w = answer (json (ListBody (data e)) 200) w [])
  ∧ (cacheHit (getNowCheck o1) (fileListCache w !! cacheKeyOf wallet) = None →
     getSucceeds o1 w →
     response (GET o1 (Some wallet) w) = json (ListBody (freshList wallet w)) 200
     ∧ calls (GET o1 (Some wallet) w) = connectCalls w ++ [FileFind wallet]
     ∧ fileListCache (world (GET o1 (Some wallet) w)) !! cacheKeyOf wallet
       = Some {| data := freshList wallet w; timestamp := getNowStore o1 |}
     ∧ (fileListCache w2 !! cacheKeyOf wallet
        = fileListCache (world (GET o1 (Some wallet) w)) !! cacheKeyOf wallet →
        getNowCheck o1 ≤ getNowStore o1 →
        getNowCheck o2 - getNowCheck o1 < 30000 →
        response (GET o2 (Some wallet) w2) = response (GET o1 (Some wallet) w)
        ∧ calls (GET o2 (Some wallet) w2) = []
        ∧ world (GET o2 (Some wallet) w2) = w2)).
Proof.
  intros Hw. split; [apply cacheHit_iff |].
  split; [intros e; now apply GET_hit |].
  intros Hmiss Hok. rewrite (GET_miss_succeeds o1 w wallet Hw Hmiss Hok).
  cbn. rewrite lookup_insert_eq.
  split; [reflexivity |]. split; [reflexivity |]. split; [reflexivity |].
  intros Hsame Hclock Hsoon.
  rewrite (GET_hit o2 w2 wallet
    {| data := freshList wallet w; timestamp := getNowStore o1 |} Hw).
  - auto.
  - apply cacheHit_iff. split; [exact Hsame |]. cbn. lia.
Qed.

Lemma GET_cache_ttl_witness :
  response (GET (sampleGet 29999) (Some "0xabc") listedOnce)
  = response (GET (sampleGet 0) (Some "0xabc") emptyWorld)
  ∧ calls (GET (sampleGet 0) (Some "0xabc") emptyWorld)
    = [ConnectToDatabase; FileFind "0xabc"]
  ∧ calls (GET (sampleGet 29999) (Some "0xabc") listedOnce) = [].
Proof.
  pose proof (GET_cache_ttl (sampleGet 0) (sampleGet 29999)
    emptyWorld listedOnce "0xabc") as H.
  destruct H as (_ & _ & H); [discriminate |].
  destruct H as (_ & Hc & _ & H);
    [reflexivity | split; [right; exists tt; reflexivity | reflexivity] |].
  destruct H as (Hr & Hn & _); [reflexivity | reflexivity | reflexivity |].
  split; [exact Hr | split; [exact Hc | exact Hn]].
Defined.

(** C5, where the claim as written fails.  A list that misses the cache
    stores its result only when its database query has resolved.  A
    second list for the wallet that starts before that, however soon
    after the first, finds no entry and queries the database too. *)
Lemma GET_second_while_first_waits :
  ¬ (∀ (o1 o2 : GetAnswers) (w w1 : World) (wallet : string)
       (found : list FileDoc) (cs : list Call),
       wallet ≠ "" →
       GET_begin o1 (Some wallet) w = Suspended wallet found w1 cs →
       getSucceeds o2 w1 →
       0 ≤ getNowCheck o2 - getNowCheck o1 < 30000 →
       ∃ r, GET_begin o2 (Some wallet) w1 = Answered r
            ∧ response r
              = response (GET_finish o1 wallet found cs w1)
            ∧ calls r = []).
Proof.
  intros H.
  destruct (H (sampleGet 0) (sampleGet 1000) emptyWorld (fst listInFlight)
              "0xabc" [] [ConnectToDatabase; FileFind "0xabc"])
    as (r & Hr & _).
  - discriminate.
  - reflexivity.
  - split; [left; reflexivity | reflexivity].
  - cbn. lia.
  - vm_compute in Hr. discriminate Hr.
Qed.

(** The run behind it: both lists query the database. *)
Example two_lists_overlap :
  startCalls (GET_begin (sampleGet 0) (Some "0xabc") emptyWorld)
  = [ConnectToDatabase; FileFind "0xabc"]
  ∧ startCalls (GET_begin (sampleGet 1000) (Some "0xabc") (fst listInFlight))
    = [FileFind "0xabc"].
Proof. vm_compute. split; reflexivity. Qed.

End ListFacts.

(** ** The metadata service: what a list shows *)

Module FormatFacts.
Import UploadRoute UploadTerms JSTerms JSFacts Samples.

Lemma insertByCreatedAtDesc_perm (f : FileDoc) (fs : list FileDoc) :
  insertByCreatedAtDesc f fs ≡ₚ f :: fs.
Proof.
  induction fs as [|g fs IH]; cbn; [reflexivity |].
  destruct (createdAt f <? createdAt g); [|reflexivity].
  rewrite IH. apply Permutation_swap.
Qed.

(** [find] returns the documents of the wallet, all of them, once each. *)
Lemma find_perm (wallet : string) (fs : list FileDoc) :
  find wallet fs ≡ₚ filter (fun f => walletAddress f = wallet) fs.
Proof.
  unfold find.
  induction (filter (fun f => walletAddress f = wallet) fs) as [|f l IH];
    cbn; [reflexivity |].
  rewrite insertByCreatedAtDesc_perm. now rewrite IH.
Qed.

Lemma find_elem (wallet : string) (fs : list FileDoc) (f : FileDoc) :
  f ∈ find wallet fs ↔ f ∈ fs ∧ walletAddress f = wallet.
Proof. rewrite find_perm, list_elem_of_filter. tauto. Qed.

Lemma insertByCreatedAtDesc_sorted (f : FileDoc) (fs : list FileDoc) :
  newestFirst fs → newestFirst (insertByCreatedAtDesc f fs).
Proof.
  induction fs as [|g fs IH]; intros Hs.
  - intros i j a b Hij Ha Hb. cbn in *.
    destruct i, j; cbn in *; try lia; try discriminate.
  - cbn. destruct (Z.ltb_spec (createdAt f) (createdAt g)) as [Hlt | Hge].
    + assert (Htail : newestFirst fs).
      { intros i j a b Hij Ha Hb.
        apply (Hs (S i) (S j) a b); [lia | exact Ha | exact Hb]. }
      specialize (IH Htail).
      intros i j a b Hij Ha Hb.
      destruct i as [|i], j as [|j]; cbn in *; try lia.
      * injection Ha as <-.
        apply list_elem_of_lookup_2 in Hb.
        rewrite insertByCreatedAtDesc_perm in Hb.
        apply elem_of_cons in Hb as [-> | Hb]; [lia |].
        apply list_elem_of_lookup_1 in Hb as [k Hk].
        apply (Hs 0%nat (S k) g b); [lia | reflexivity | exact Hk].
      * apply (IH i j a b); [lia | exact Ha | exact Hb].
    + intros i j a b Hij Ha Hb.
      destruct i as [|i], j as [|j]; cbn in *; try lia.
      * injection Ha as <-.
        destruct j as [|j]; cbn in *.
        { injection Hb as <-. lia. }
        pose proof (Hs 0%nat (S j) g b ltac:(lia) eq_refl Hb). lia.
      * apply (Hs i j a b); [lia | exact Ha | exact Hb].
Qed.

Lemma find_newestFirst (wallet : string) (fs : list FileDoc) :
  newestFirst (find wallet fs).
Proof.
  unfold find.
  induction (filter (fun f => walletAddress f = wallet) fs) as [|f l IH]; cbn.
  - intros i j a b _ Ha. destruct i; discriminate Ha.
  - now apply insertByCreatedAtDesc_sorted.
Qed.

(** Every element of a list computed from the database is the decoration
    of a stored document of the wallet. *)
Lemma freshList_elem (wallet : string) (w : World) (lf : ListedFile) :
  lf ∈ freshList wallet w →
  ∃ f, f ∈ files w ∧ walletAddress f = wallet ∧ lf = transform f.
Proof.
  unfold freshList. intros H.
  apply list_elem_of_fmap in H as (f & -> & Hf).
  apply find_elem in Hf as [Hin Hwal]. eauto.
Qed.

(** C6.  For a document whose size string parses as the integer [n], a
    safe integer, the decoration of [GET] sets [formattedSize] by the
    thresholds: below 1024 the number and B; below 1024^2 the quotient by
    1024 to two decimals and KB; below 1024^3 the quotient by 1024^2 to
    two decimals and MB; otherwise the quotient by 1024^3 to two decimals
    and GB.  In particular 500 gives 500 B, 2048 gives 2.00 KB, 5242880
    gives 5.00 MB and 3221225472 gives 3.00 GB. *)
Theorem formattedSize_by_thresholds :
  (∀ (file : FileDoc) (n : Z),
     JS.parseInt (size file) = Some n →
     JS.isSafeInteger n →
     (n < 1024 →
      formattedSize (transform file) = JS.numberToString n +:+ " B")
     ∧ (1024 ≤ n < 1024 ^ 2 →
        formattedSize (transform file) = twoDecimals n 1024 +:+ " KB")
     ∧ (1024 ^ 2 ≤ n < 1024 ^ 3 →
        formattedSize (transform file) = twoDecimals n (1024 ^ 2) +:+ " MB")
     ∧ (1024 ^ 3 ≤ n →
        formattedSize (transform file) = twoDecimals n (1024 ^ 3) +:+ " GB"))
  ∧ formattedSize (transform (sampleFile "500")) = "500 B"
  ∧ formattedSize (transform (sampleFile "2048")) = "2.00 KB"
  ∧ formattedSize (transform (sampleFile "5242880")) = "5.00 MB"
  ∧ formattedSize (transform (sampleFile "3221225472")) = "3.00 GB".
Proof.
  split; [|repeat split; vm_compute; reflexivity].
  intros file n Hparse _.
  unfold transform. cbn [formattedSize]. unfold formatSize. rewrite Hparse.
  change (1024 * 1024 * 1024) with (1024 ^ 3).
  change (1024 * 1024) with (1024 ^ 2).
  destruct (Z.ltb_spec n 1024); [repeat split; intros; (reflexivity || lia) |].
  destruct (Z.ltb_spec n (1024 ^ 2)).
  { repeat split; intros; try lia.
    rewrite toFixed2_twoDecimals by lia. reflexivity. }
  destruct (Z.ltb_spec n (1024 ^ 3)).
  { repeat split; intros; try lia.
    rewrite toFixed2_twoDecimals by lia. reflexivity. }
  repeat split; intros; try lia.
  rewrite toFixed2_twoDecimals by lia. reflexivity.
Qed.

Lemma formattedSize_witness :
  formattedSize (transform (sampleFile "1536")) = "1.50 KB".
Proof.
  refine (eq_trans
    (proj1 (proj2 (proj1 formattedSize_by_thresholds
       (sampleFile "1536") 1536 _ _)) _) _).
  - reflexivity.
  - unfold JS.isSafeInteger, JS.MIN_SAFE_INTEGER, JS.MAX_SAFE_INTEGER. lia.
  - lia.
  - vm_compute. reflexivity.
Defined.

End FormatFacts.

(** ** The upload proxy *)

Module ProxyFacts.
Import WebhashProxy ProxyTerms ProxySamples JSFacts.

Lemma json_relayable (o : ProxyAnswers) (b : Json) (st : Z) :
  relayable st → json o b st = Returns {| status := st; body := b |}.
Proof.
  intros (Hr & H204 & H205 & H304). unfold json.
  destruct (Z.leb_spec 200 st); [|lia].
  destruct (Z.leb_spec st 599); [|lia].
  destruct (Z.eqb_spec st 204); [lia |].
  destruct (Z.eqb_spec st 205); [lia |].
  destruct (Z.eqb_spec st 304); [lia |].
  reflexivity.
Qed.

(** With the key configured and a file in the form, the handler calls
    the external API once and goes on with its answer. *)
Lemma POST_after_fetch (o : ProxyAnswers) (key : string) (formData : FormData) :
  NEXT_PUBLIC_WEBHASH_API_KEY o = Some key → key ≠ "" →
  requestFormData o = Returns formData →
  truthyValue (get "file" formData) = true →
  ∃ url,
    let sent := [ReadFormData; Fetch (url +:+ "/upload") ("Bearer " +:+ key) formData] in
    POST o =
    match fetched o with
    | Throws fetchError =>
        reply (json o (JObject [("error",
                 JString ("WebHash API fetch error: " +:+ errorText fetchError))]) 500)
              sent
    | Returns webhashResponse =>
        if negb (ok webhashResponse) then
          reply (json o
                   (relayedError (extStatus webhashResponse)
                      (extStatusText webhashResponse)
                      match extText webhashResponse with
                      | Returns t => t
                      | Throws _ => "Could not read error response"
                      end)
                   (extStatus webhashResponse))
                (sent ++ [ReadText])
        else
          match extJson webhashResponse with
          | Throws _ =>
              reply (json o (JObject [("error",
                       JString "Failed to parse WebHash API response")]) 500)
                    (sent ++ [ReadJson])
          | Returns webhashData =>
              reply (json o webhashData 200) (sent ++ [ReadJson])
          end
    end.
Proof.
  intros Hkey Hne Hform Hfile. eexists. unfold POST.
  rewrite Hkey, truthy_Some by assumption. cbn [negb].
  rewrite Hform, Hfile. cbn [negb].
  change (default "" (Some key)) with key. reflexivity.
Qed.

(** C7, as the code has it.  When the external API answers with a status
    that is not a success and that a response with a body may carry (300
    to 599 except 304), the proxy answers with that status, and its body
    is a JSON object of two members: [error], which names the status and
    the status text, and [details], which holds the text of the external
    body unchanged, or a fixed sentence when that body cannot be read.
    One call went to the external API. *)
Theorem POST_relays_external_error
    (o : ProxyAnswers) (key : string) (formData : FormData)
    (r : ExternalResponse) :
  NEXT_PUBLIC_WEBHASH_API_KEY o = Some key → key ≠ "" →
  requestFormData o = Returns formData →
  truthyValue (get "file" formData) = true →
  fetched o = Returns r →
  ok r = false →
  relayable (extStatus r) →
  status (fst (POST o)) = extStatus r
  ∧ (∀ text, extText r = Returns text →
       body (fst (POST o)) = relayedError (extStatus r) (extStatusText r) text)
  ∧ (∀ e, extText r = Throws e →
       body (fst (POST o))
       = relayedError (extStatus r) (extStatusText r)
           "Could not read error response")
  ∧ ∃ url, snd (POST o)
           = [ReadFormData; Fetch url ("Bearer " +:+ key) formData; ReadText].
Proof.
  intros Hkey Hne Hform Hfile Hfetch Hok Hst.
  destruct (POST_after_fetch o key formData Hkey Hne Hform Hfile) as [url ->].
  rewrite Hfetch, Hok. cbn [negb].
  rewrite json_relayable by assumption. cbn.
  split; [reflexivity |].
  split; [intros text ->; reflexivity |].
  split; [intros e ->; reflexivity |].
  eexists. reflexivity.
Qed.

Lemma POST_relays_external_error_witness :
  status (fst (POST (sampleRequest (Some "k3y") sampleForm
                       (externalAnswer 404 "Not Found" "no such pin")))) = 404
  ∧ body (fst (POST (sampleRequest (Some "k3y") sampleForm
                       (externalAnswer 404 "Not Found" "no such pin"))))
    = relayedError 404 "Not Found" "no such pin".
Proof.
  destruct (POST_relays_external_error
    (sampleRequest (Some "k3y") sampleForm
       (externalAnswer 404 "Not Found" "no such pin"))
    "k3y" sampleForm (externalAnswer 404 "Not Found" "no such pin")
    eq_refl ltac:(discriminate) eq_refl eq_refl eq_refl eq_refl
    ltac:(unfold relayable; cbn; lia)) as (Hs & Hb & _).
  split; [exact Hs | exact (Hb "no such pin" eq_refl)].
Defined.

Example relayedError_404 :
  relayedError 404 "Not Found" "no such pin"
  = JObject [("error", JString "WebHash API error: 404 Not Found");
             ("details", JString "no such pin")].
Proof. vm_compute. reflexivity. Qed.

(** C7, where the claim as written fails.  The body of the answer is not
    the text of the external body: for a 404 with the text [no such pin]
    it is an object that holds that text under [details].  And a status
    that allows no body is not passed on: an external 304 gives 500. *)
Lemma POST_wraps_external_error :
  ¬ (∀ (o : ProxyAnswers) (key : string) (formData : FormData)
       (r : ExternalResponse) (text : string),
       NEXT_PUBLIC_WEBHASH_API_KEY o = Some key → key ≠ "" →
       requestFormData o = Returns formData →
       truthyValue (get "file" formData) = true →
       fetched o = Returns r →
       ok r = false →
       extText r = Returns text →
       status (fst (POST o)) = extStatus r
       ∧ body (fst (POST o)) = JString text)
  ∧ ¬ (∀ (o : ProxyAnswers) (key : string) (formData : FormData)
         (r : ExternalResponse),
         NEXT_PUBLIC_WEBHASH_API_KEY o = Some key → key ≠ "" →
         requestFormData o = Returns formData →
         truthyValue (get "file" formData) = true →
         fetched o = Returns r →
         ok r = false →
         status (fst (POST o)) = extStatus r).
Proof.
  split; intros H.
  - destruct (H (sampleRequest (Some "k3y") sampleForm
                   (externalAnswer 404 "Not Found" "no such pin"))
                "k3y" sampleForm (externalAnswer 404 "Not Found" "no such pin")
                "no such pin"
                eq_refl ltac:(discriminate) eq_refl eq_refl eq_refl eq_refl
                eq_refl) as [_ Hb].
    vm_compute in Hb. discriminate Hb.
  - specialize (H (sampleRequest (Some "k3y") sampleForm
                     (externalAnswer 304 "Not Modified" ""))
                  "k3y" sampleForm (externalAnswer 304 "Not Modified" "")).
    specialize (H eq_refl ltac:(discriminate) eq_refl eq_refl eq_refl eq_refl).
    vm_compute in H. discriminate H.
Qed.

(** C9.  The key is looked at before the form is read: with the bearer
    key not configured (absent or empty) the handler answers 500, WebHash
    API key is not configured, without reading the form and without a
    call to the external API, whatever the form holds; so a request
    without key and without file gets 500 and not 400. *)
Theorem POST_unconfigured_key_first (o : ProxyAnswers) :
  JS.truthy (NEXT_PUBLIC_WEBHASH_API_KEY o) = false →
  POST o
  = ({| status := 500;
        body := JObject [("error", JString "WebHash API key is not configured")] |},
     [])
  ∧ status (fst (POST o)) ≠ 400
  ∧ (ReadFormData ∉ snd (POST o))
  ∧ ¬ calledOut (snd (POST o)).
Proof.
  intros Hkey. unfold POST. rewrite Hkey. cbn.
  split; [reflexivity |]. split; [discriminate |].
  split; [apply not_elem_of_nil |].
  intros (url & a & f & Hin). now apply not_elem_of_nil in Hin.
Qed.

Lemma POST_unconfigured_key_witness :
  POST (sampleRequest None [] (externalAnswer 200 "OK" ""))
  = ({| status := 500;
        body := JObject [("error", JString "WebHash API key is not configured")] |},
     []).
Proof.
  exact (proj1 (POST_unconfigured_key_first
    (sampleRequest None [] (externalAnswer 200 "OK" "")) eq_refl)).
Defined.

(** C8, as the code has it.  For a request whose form has no [file]
    field no call to the external API is attempted.  With the bearer key
    configured the answer is 400, No file found in request; with the key
    not configured it is the 500 of the key check, which comes first. *)
Theorem POST_without_file (o : ProxyAnswers) (formData : FormData) :
  requestFormData o = Returns formData →
  get "file" formData = None →
  ¬ calledOut (snd (POST o))
  ∧ (configured o →
     POST o
     = ({| status := 400;
           body := JObject [("error", JString "No file found in request")] |},
        [ReadFormData]))
  ∧ (¬ configured o → status (fst (POST o)) = 500).
Proof.
  intros Hform Hfile. unfold configured, POST.
  destruct (JS.truthy (NEXT_PUBLIC_WEBHASH_API_KEY o)); cbn [negb].
  - rewrite Hform, Hfile. cbn.
    split; [|split; [reflexivity | congruence]].
    intros (url & a & f & Hin).
    apply list_elem_of_singleton in Hin. discriminate Hin.
  - cbn. split; [|split; [discriminate | reflexivity]].
    intros (url & a & f & Hin). now apply not_elem_of_nil in Hin.
Qed.

Lemma POST_without_file_witness :
  POST (sampleRequest (Some "k3y") [("note", TextValue "hello")]
          (externalAnswer 200 "OK" ""))
  = ({| status := 400;
        body := JObject [("error", JString "No file found in request")] |},
     [ReadFormData]).
Proof.
  exact (proj1 (proj2 (POST_without_file
    (sampleRequest (Some "k3y") [("note", TextValue "hello")]
       (externalAnswer 200 "OK" ""))
    [("note", TextValue "hello")] eq_refl eq_refl)) eq_refl).
Defined.

(** C8, where the claim as written fails: no file and no key gives 500. *)
Lemma POST_without_file_nor_key :
  ¬ (∀ (o : ProxyAnswers) (formData : FormData),
       requestFormData o = Returns formData →
       get "file" formData = None →
       status (fst (POST o)) = 400).
Proof.
  intros H.
  specialize (H (sampleRequest None [] (externalAnswer 200 "OK" "")) []
                eq_refl eq_refl).
  vm_compute in H. discriminate H.
Qed.

End ProxyFacts.

(** ** The metadata service: what every request does *)

Module RunFacts.
Import UploadRoute UploadTerms RunTerms JSTerms JSFacts Samples.
Import CreateFacts DeleteFacts ListFacts FormatFacts.

Lemma setPromise_same (w : World) : setPromise (dbConnectionPromise w) w = w.
Proof. destruct w; reflexivity. Qed.

Lemma truthy_false_or (x : option string) :
  JS.truthy x = false ∨ ∃ s, x = Some s ∧ s ≠ "".
Proof.
  destruct (JS.truthy x) eqn:E; [right; now apply truthy_inv | now left].
Qed.

(** The world a [POST] leaves: the one it found, up to the memoised
    connection; or that world with one record more; or, on success, with
    the record, the account moved and the wallet's cache entry gone. *)
Lemma POST_world_cases (o : PostAnswers) (w : World) :
  (∃ p, world (POST o w) = setPromise p w)
  ∨ ∃ file,
      requestWallet (Create o) = Some (walletAddress file)
      ∧ walletAddress file ≠ ""
      ∧ ((world (POST o w) = setFiles (files w ++ [file]) (setPromise true w)
          ∧ (JS.parseInt (size file) = None ∨ postUpsert o ≠ Returns true))
         ∨ ∃ n, JS.parseInt (size file) = Some n
             ∧ postUpsert o = Returns true
             ∧ world (POST o w)
               = setCache (delete (cacheKeyOf (walletAddress file)) (fileListCache w))
                   (setUsers (upsertInc (walletAddress file) n (users w))
                      (setFiles (files w ++ [file]) (setPromise true w)))).
Proof.
  unfold POST. cbn [requestWallet].
  destruct (postJson o) as [req|e];
    [|left; exists (dbConnectionPromise w); now rewrite setPromise_same].
  destruct (truthy_false_or (reqWalletAddress req)) as [-> | (wallet & Ew & Hw)];
    [left; exists (dbConnectionPromise w); now rewrite setPromise_same |].
  rewrite Ew, (truthy_Some wallet Hw). cbn [negb].
  change (default "" (Some wallet)) with wallet.
  destruct (negb (JS.truthy (reqFileName req)) || negb (JS.truthy (reqCid req))
            || negb (JS.truthy (reqSize req)) || negb (JS.truthy (reqMimeType req)));
    [left; exists (dbConnectionPromise w); now rewrite setPromise_same |].
  destruct (ensureDbConnection (postConnect o) w) as [[b w1] cs] eqn:Ec.
  assert (Hw1 : b = true → w1 = setPromise true w).
  { intros ->. unfold ensureDbConnection in Ec.
    destruct (dbConnectionPromise w) eqn:Ep.
    - injection Ec as <- <-. now rewrite setPromise_id.
    - destruct (postConnect o); [injection Ec as <- <-; reflexivity | discriminate Ec]. }
  assert (Hw0 : ∃ p, w1 = setPromise p w).
  { destruct (ensureDbConnection_world (postConnect o) w) as (b' & p & cs' & E).
    rewrite E in Ec. injection Ec as <- <- <-. eauto. }
  destruct b; cbn [negb]; [|left; exact Hw0].
  rewrite (Hw1 eq_refl).
  destruct (postCreate o) as [[[ident created] updated]|e]; [|left; eauto].
  right.
  match goal with |- context [create ?f _] => exists f end.
  cbn [walletAddress size].
  split; [reflexivity |]. split; [exact Hw |].
  unfold create. cbn [files].
  destruct (JS.parseInt (default "" (reqSize req))) as [n|] eqn:Ep.
  - destruct (postUpsert o) as [[]|e] eqn:Eu.
    + right. exists n. repeat split; reflexivity.
    + left. split; [reflexivity | right; discriminate].
    + left. split; [reflexivity | right; discriminate].
  - left. split; [reflexivity | now left].
Qed.

(** The world a [DELETE] leaves. *)
Lemma DELETE_world_cases (o : DeleteAnswers) (cidParam walletParam : option string)
    (w : World) :
  (∃ p, world (DELETE o cidParam walletParam w) = setPromise p w)
  ∨ ∃ c wallet file,
      walletParam = Some wallet ∧ wallet ≠ ""
      ∧ findOne c wallet (files w) = Some file
      ∧ ((world (DELETE o cidParam walletParam w)
          = setFiles (deleteOne c wallet (files w)) (setPromise true w)
          ∧ ∃ e, delUpdate o = Throws e)
         ∨ ((∃ u, delUpdate o = Returns u)
            ∧ world (DELETE o cidParam walletParam w)
              = setCache (delete (cacheKeyOf wallet) (fileListCache w))
                  (setUsers (inc wallet (- parsedSize file) (users w))
                     (setFiles (deleteOne c wallet (files w))
                        (setPromise true w))))).
Proof.
  unfold DELETE.
  destruct (truthy_false_or cidParam) as [-> | (c & -> & Hc)];
    [left; exists (dbConnectionPromise w); now rewrite setPromise_same |].
  destruct (truthy_false_or walletParam) as [-> | (wallet & -> & Hw)].
  { left. exists (dbConnectionPromise w). rewrite setPromise_same.
    now rewrite Bool.orb_true_r. }
  rewrite !truthy_Some by assumption. cbn [negb orb].
  change (default "" (Some c)) with c.
  change (default "" (Some wallet)) with wallet.
  destruct (ensureDbConnection (delConnect o) w) as [[b w1] cs] eqn:Ec.
  assert (Hw1 : b = true → w1 = setPromise true w).
  { intros ->. unfold ensureDbConnection in Ec.
    destruct (dbConnectionPromise w) eqn:Ep.
    - injection Ec as <- <-. now rewrite setPromise_id.
    - destruct (delConnect o); [injection Ec as <- <-; reflexivity | discriminate Ec]. }
  assert (Hw0 : ∃ p, w1 = setPromise p w).
  { destruct (ensureDbConnection_world (delConnect o) w) as (b' & p & cs' & E).
    rewrite E in Ec. injection Ec as <- <- <-. eauto. }
  destruct b; cbn [negb]; [|left; exact Hw0].
  rewrite (Hw1 eq_refl). cbv zeta.
  destruct (delFindOne o); [|left; eauto].
  cbn [files setPromise].
  destruct (findOne c wallet (files w)) as [file|] eqn:Ef; [|left; eauto].
  destruct (delDeleteOne o); [|left; eauto].
  right. exists c, wallet, file.
  split; [reflexivity |]. split; [exact Hw |]. split; [exact Ef |].
  destruct (delUpdate o) as [u|e]; [right | left]; cbn; eauto.
Qed.

(** The world a [GET] leaves: only the cache entry of its wallet and the
    memoised connection can differ. *)
Lemma GET_world_cases (o : GetAnswers) (walletParam : option string) (w : World) :
  (∃ p, world (GET o walletParam w) = setPromise p w)
  ∨ ∃ wallet,
      walletParam = Some wallet ∧ wallet ≠ ""
      ∧ world (GET o walletParam w)
        = setCache (<[cacheKeyOf wallet :=
                       {| data := freshList wallet w;
                          timestamp := getNowStore o |}]> (fileListCache w))
            (setPromise true w).
Proof.
  unfold GET.
  destruct (truthy_false_or walletParam) as [-> | (wallet & -> & Hw)];
    [left; exists (dbConnectionPromise w); now rewrite setPromise_same |].
  rewrite truthy_Some by assumption. cbn [negb].
  change (default "" (Some wallet)) with wallet. cbv zeta.
  destruct (cacheHit _ _);
    [left; exists (dbConnectionPromise w); now rewrite setPromise_same |].
  destruct (ensureDbConnection (getConnect o) w) as [[b w1] cs] eqn:Ec.
  assert (Hw1 : b = true → w1 = setPromise true w).
  { intros ->. unfold ensureDbConnection in Ec.
    destruct (dbConnectionPromise w) eqn:Ep.
    - injection Ec as <- <-. now rewrite setPromise_id.
    - destruct (getConnect o); [injection Ec as <- <-; reflexivity | discriminate Ec]. }
  assert (Hw0 : ∃ p, w1 = setPromise p w).
  { destruct (ensureDbConnection_world (getConnect o) w) as (b' & p & cs' & E).
    rewrite E in Ec. injection Ec as <- <- <-. eauto. }
  destruct b; cbn [negb]; [|left; exact Hw0].
  rewrite (Hw1 eq_refl).
  destruct (getFind o); [|left; eauto].
  right. exists wallet. auto.
Qed.

(** *** Incomplete requests *)

(** X1.  A request that lacks a field or parameter the handler asks for
    (absent, [null] or empty) is answered 400 with the handler's message,
    before anything else happens: no call goes to the database, not even
    the connection attempt, and the state is left as it was.  For a
    create the wallet address is looked at first. *)
Theorem incomplete_request_refused (r : Request) (w : World) :
  incomplete r →
  response (handle r w) = json (ErrorBody (refusal r)) 400
  ∧ calls (handle r w) = []
  ∧ world (handle r w) = w.
Proof.
  destruct r as [o | o wp | o cp wp]; cbn [incomplete handle refusal].
  - intros (req & Hreq & Hf). unfold POST. rewrite Hreq.
    destruct (JS.truthy (reqWalletAddress req)); cbn [negb];
      [|repeat split; reflexivity].
    destruct (JS.truthy (reqFileName req)), (JS.truthy (reqCid req)),
      (JS.truthy (reqSize req)), (JS.truthy (reqMimeType req));
      cbn in Hf; try discriminate Hf; repeat split; reflexivity.
  - intros Hf. unfold GET. rewrite Hf. repeat split; reflexivity.
  - intros Hf. unfold DELETE.
    destruct (JS.truthy cp), (JS.truthy wp); cbn in Hf; try discriminate Hf;
      repeat split; reflexivity.
Qed.

Lemma incomplete_request_witness :
  response (POST (samplePost "" (Returns true)) emptyWorld)
  = json (ErrorBody "Missing required fields") 400
  ∧ calls (POST (samplePost "" (Returns true)) emptyWorld) = [].
Proof.
  destruct (incomplete_request_refused
    (Create (samplePost "" (Returns true))) emptyWorld
    (ex_intro _ _ (conj eq_refl eq_refl))) as (Hr & Hc & _).
  split; [exact Hr | exact Hc].
Defined.

(** *** The memoised connection *)

Lemma ensureDbConnection_memoised (connect : Outcome unit) (w : World) :
  dbConnectionPromise w = true → ensureDbConnection connect w = (true, w, []).
Proof. unfold ensureDbConnection. now intros ->. Qed.

Ltac no_connect_call :=
  cbn; split;
  [ intros Hin;
    repeat (apply elem_of_cons in Hin as [Hin | Hin]; [discriminate Hin |]);
    now apply elem_of_nil in Hin
  | assumption ].

Lemma memoised_step (r : Request) (w : World) :
  dbConnectionPromise w = true →
  (ConnectToDatabase ∉ calls (handle r w))
  ∧ dbConnectionPromise (world (handle r w)) = true.
Proof.
  intros Hp. destruct r as [o | o wp | o cp wp]; cbn [handle].
  - unfold POST.
    destruct (postJson o) as [req|e]; [|no_connect_call].
    destruct (negb (JS.truthy (reqWalletAddress req))); [no_connect_call |].
    match goal with |- context [if ?b then _ else _] => destruct b end;
      [no_connect_call |].
    rewrite ensureDbConnection_memoised by assumption. cbn [negb].
    destruct (postCreate o) as [[[ident created] updated]|e]; [|no_connect_call].
    destruct (JS.parseInt _); [|no_connect_call].
    destruct (postUpsert o) as [[]|e]; no_connect_call.
  - unfold GET.
    destruct (negb (JS.truthy wp)); [no_connect_call |].
    cbv zeta. destruct (cacheHit _ _); [no_connect_call |].
    rewrite ensureDbConnection_memoised by assumption. cbn [negb].
    destruct (getFind o); no_connect_call.
  - unfold DELETE.
    match goal with |- context [if ?b then _ else _] => destruct b end;
      [no_connect_call |].
    rewrite ensureDbConnection_memoised by assumption. cbn [negb]. cbv zeta.
    destruct (delFindOne o); [|no_connect_call].
    destruct (findOne _ _ _); [|no_connect_call].
    destruct (delDeleteOne o); [|no_connect_call].
    destruct (delUpdate o); no_connect_call.
Qed.

(** X2.  Once a connection is memoised, no later request calls
    [connectToDatabase] again and the memoised connection stays in place,
    whatever the requests are and whatever the database answers. *)
Theorem established_connection_is_reused (rs : list Request) (w : World) :
  dbConnectionPromise w = true →
  (ConnectToDatabase ∉ callsOf rs w)
  ∧ dbConnectionPromise (serve rs w) = true.
Proof.
  revert w. induction rs as [|r rs IH]; intros w Hp.
  - split; [apply not_elem_of_nil | exact Hp].
  - destruct (memoised_step r w Hp) as [Hc Hp'].
    destruct (IH _ Hp') as [Hcs Hps].
    cbn [callsOf]. split; [|exact Hps].
    rewrite elem_of_app. tauto.
Qed.

Lemma established_connection_witness :
  callsOf [Create (samplePost "500" (Returns true));
           List (sampleGet 1000) (Some "0xabc");
           Remove sampleDelete (Some "QmA") (Some "0xabc")] emptyWorld
  = [ConnectToDatabase;
     FileCreate "a.txt" "QmA" "500" "text/plain" "0xabc";
     UserUpsertInc "0xabc" 500;
     FileFind "0xabc";
     FileFindOne "QmA" "0xabc"; FileDeleteOne "QmA" "0xabc";
     UserInc "0xabc" (-500)]
  ∧ ConnectToDatabase ∉
      callsOf [List (sampleGet 1000) (Some "0xabc");
               Remove sampleDelete (Some "QmA") (Some "0xabc")]
        (world (POST (samplePost "500" (Returns true)) emptyWorld)).
Proof.
  split; [vm_compute; reflexivity |].
  exact (proj1 (established_connection_is_reused
    [List (sampleGet 1000) (Some "0xabc");
     Remove sampleDelete (Some "QmA") (Some "0xabc")]
    (world (POST (samplePost "500" (Returns true)) emptyWorld)) eq_refl)).
Defined.

(** X3.  When no connection is memoised and the connection attempt fails,
    a request that gets as far as the database is answered 503, Failed
    to connect to database; the attempt is its only call, nothing is
    stored or changed, and nothing is memoised, so that the next request
    attempts the connection again. *)
Theorem failed_connection_gives_503 (r : Request) (w : World) (e : Thrown) :
  dbConnectionPromise w = false →
  connectOf r = Throws e →
  reachesDatabase r w →
  response (handle r w) = json (ErrorBody "Failed to connect to database") 503
  ∧ calls (handle r w) = [ConnectToDatabase]
  ∧ world (handle r w) = w
  ∧ (∀ r', reachesDatabase r' (world (handle r w)) →
       ConnectToDatabase ∈ calls (handle r' (world (handle r w)))).
Proof.
  intros Hp Hc Hr.
  assert (Hw : setPromise false w = w) by (rewrite <- Hp; apply setPromise_same).
  assert (Hstep : ∀ r' w', dbConnectionPromise w' = false → reachesDatabase r' w' →
            ConnectToDatabase ∈ calls (handle r' w')).
  { clear. intros r w Hp Hr.
    destruct r as [o | o wp | o cp wp]; cbn [handle reachesDatabase] in *.
    - destruct Hr as (req & Hreq & Ht). unfold POST. rewrite Hreq.
      destruct (JS.truthy (reqWalletAddress req)), (JS.truthy (reqFileName req)),
        (JS.truthy (reqCid req)), (JS.truthy (reqSize req)),
        (JS.truthy (reqMimeType req)); try discriminate Ht.
      cbn [negb orb]. unfold ensureDbConnection. rewrite Hp.
      destruct (postConnect o); cbn [negb]; [|cbn; apply list_elem_of_here].
      destruct (postCreate o) as [[[ident created] updated]|]; [|cbn; apply list_elem_of_here].
      destruct (JS.parseInt _); [|cbn; apply list_elem_of_here].
      destruct (postUpsert o) as [[]|]; cbn; apply list_elem_of_here.
    - destruct Hr as (wallet & -> & Hne & Hmiss).
      rewrite GET_miss by assumption. unfold ensureDbConnection. rewrite Hp.
      destruct (getConnect o); cbn [negb]; [|cbn; apply list_elem_of_here].
      destruct (getFind o); cbn; apply list_elem_of_here.
    - unfold DELETE.
      destruct (JS.truthy cp), (JS.truthy wp); try discriminate Hr.
      cbn [negb orb]. unfold ensureDbConnection. rewrite Hp.
      destruct (delConnect o); cbn [negb]; [|cbn; apply list_elem_of_here].
      cbv zeta. destruct (delFindOne o); [|cbn; apply list_elem_of_here].
      destruct (findOne _ _ _); [|cbn; apply list_elem_of_here].
      destruct (delDeleteOne o); [|cbn; apply list_elem_of_here].
      destruct (delUpdate o); cbn; apply list_elem_of_here. }
  assert (Hmain : response (handle r w)
                  = json (ErrorBody "Failed to connect to database") 503
                  ∧ calls (handle r w) = [ConnectToDatabase]
                  ∧ world (handle r w) = w).
  { destruct r as [o | o wp | o cp wp]; cbn [handle reachesDatabase connectOf] in *.
    - destruct Hr as (req & Hreq & Ht). unfold POST. rewrite Hreq.
      destruct (JS.truthy (reqWalletAddress req)), (JS.truthy (reqFileName req)),
        (JS.truthy (reqCid req)), (JS.truthy (reqSize req)),
        (JS.truthy (reqMimeType req)); try discriminate Ht.
      cbn [negb orb]. unfold ensureDbConnection. rewrite Hp, Hc. cbn.
      rewrite Hw. auto.
    - destruct Hr as (wallet & -> & Hne & Hmiss).
      rewrite GET_miss by assumption. unfold ensureDbConnection.
      rewrite Hp, Hc. cbn. rewrite Hw. auto.
    - unfold DELETE.
      destruct (JS.truthy cp), (JS.truthy wp); try discriminate Hr.
      cbn [negb orb]. unfold ensureDbConnection. rewrite Hp, Hc. cbn.
      rewrite Hw. auto. }
  destruct Hmain as (H1 & H2 & H3). repeat split; try assumption.
  intros r' Hr'. rewrite H3 in *. now apply Hstep.
Qed.

Lemma failed_connection_witness :
  response (GET (unreachableGet 0) (Some "0xabc") emptyWorld)
  = json (ErrorBody "Failed to connect to database") 503
  ∧ world (GET (unreachableGet 0) (Some "0xabc") emptyWorld) = emptyWorld.
Proof.
  assert (Hreach : reachesDatabase (List (unreachableGet 0) (Some "0xabc"))
                     emptyWorld).
  { exists "0xabc". split; [reflexivity |]. split; [discriminate | reflexivity]. }
  destruct (failed_connection_gives_503
    (List (unreachableGet 0) (Some "0xabc")) emptyWorld
    (ErrorObject "connect ECONNREFUSED" "") eq_refl eq_refl Hreach)
    as (Hr & _ & Hw & _).
  split; [exact Hr | exact Hw].
Defined.

(** *** One wallet's requests and another wallet's data *)

Lemma findOne_matches (c wallet : string) (fs : list FileDoc) (file : FileDoc) :
  findOne c wallet fs = Some file →
  file ∈ fs ∧ cid file = c ∧ walletAddress file = wallet.
Proof.
  induction fs as [|f fs IH]; cbn; [discriminate |].
  destruct (matches c wallet f) eqn:E.
  - intros [= <-]. split; [apply list_elem_of_here | now apply matches_wallet].
  - intros H. destruct (IH H) as (Hin & Hc & Hw).
    split; [now apply list_elem_of_further | auto].
Qed.

Lemma recordsOf_snoc_other (other : string) (fs : list FileDoc) (f : FileDoc) :
  walletAddress f ≠ other → recordsOf other (fs ++ [f]) = recordsOf other fs.
Proof.
  intros H. unfold recordsOf.
  rewrite filter_app, filter_cons_False, filter_nil by assumption.
  apply app_nil_r.
Qed.

Lemma recordsOf_deleteOne_other (c wallet other : string) (fs : list FileDoc) :
  wallet ≠ other →
  recordsOf other (deleteOne c wallet fs) = recordsOf other fs.
Proof.
  intros Hne. unfold recordsOf.
  induction fs as [|f fs IH]; cbn [deleteOne]; [reflexivity |].
  destruct (matches c wallet f) eqn:E.
  - apply matches_wallet in E as [_ E].
    rewrite filter_cons_False by congruence. reflexivity.
  - rewrite !filter_cons. now rewrite IH.
Qed.

(** X4.  A request that names one wallet leaves what belongs to any other
    wallet as it was: the other wallet's records, its [totalStorageUsed]
    and its entry in the list cache.  This holds on every path of the
    three handlers, failures included. *)
Theorem other_wallets_untouched (r : Request) (w : World) (other : string) :
  requestWallet r ≠ Some other →
  recordsOf other (files (world (handle r w))) = recordsOf other (files w)
  ∧ totalStorageUsed other (world (handle r w)) = totalStorageUsed other w
  ∧ fileListCache (world (handle r w)) !! cacheKeyOf other
    = fileListCache w !! cacheKeyOf other.
Proof.
  intros Hother. unfold totalStorageUsed.
  destruct r as [o | o wp | o cp wp]; cbn [handle].
  - destruct (POST_world_cases o w) as [[p ->] | (file & Hreq & _ & Hcases)];
      [cbn -[recordsOf]; auto |].
    assert (Hne : walletAddress file ≠ other) by congruence.
    destruct Hcases as [[-> _] | (n & _ & _ & ->)]; cbn -[recordsOf upsertInc].
    + rewrite recordsOf_snoc_other by assumption. auto.
    + rewrite recordsOf_snoc_other by assumption.
      rewrite upsertInc_other by congruence.
      rewrite lookup_delete_ne; [auto |].
      intros E. now apply cacheKeyOf_inj in E.
  - cbn [requestWallet] in Hother.
    destruct (GET_world_cases o wp w) as [[p ->] | (wallet & -> & _ & ->)];
      cbn -[recordsOf]; [auto |].
    rewrite lookup_insert_ne; [auto |].
    intros E. apply cacheKeyOf_inj in E. congruence.
  - cbn [requestWallet] in Hother.
    destruct (DELETE_world_cases o cp wp w)
      as [[p ->] | (c & wallet & file & -> & _ & _ & Hcases)]; [cbn -[recordsOf]; auto |].
    assert (Hne : wallet ≠ other) by congruence.
    destruct Hcases as [[-> _] | [_ ->]]; cbn -[recordsOf inc].
    + rewrite recordsOf_deleteOne_other by assumption. auto.
    + rewrite recordsOf_deleteOne_other by assumption.
      rewrite inc_other by congruence.
      rewrite lookup_delete_ne; [auto |].
      intros E. now apply cacheKeyOf_inj in E.
Qed.

Lemma other_wallets_witness :
  recordsOf "0xabc"
    (files (world (DELETE sampleDelete (Some "QmA") (Some "0xdef")
                     (world (POST (samplePost "500" (Returns true)) emptyWorld)))))
  = [sampleFile "500"]
  ∧ totalStorageUsed "0xabc"
      (world (DELETE sampleDelete (Some "QmA") (Some "0xdef")
                (world (POST (samplePost "500" (Returns true)) emptyWorld))))
    = Some 500.
Proof.
  destruct (other_wallets_untouched
    (Remove sampleDelete (Some "QmA") (Some "0xdef"))
    (world (POST (samplePost "500" (Returns true)) emptyWorld)) "0xabc"
    ltac:(discriminate)) as (Hf & Hu & _).
  split; [exact Hf | exact Hu].
Defined.

(** X5.  A list never writes to the database: on every path of [GET] the
    records and the accounts are the ones it found, and the only cache
    entry that can differ afterwards is the one of the wallet it was
    asked for. *)
Theorem GET_reads_only (o : GetAnswers) (walletParam : option string)
    (w : World) :
  files (world (GET o walletParam w)) = files w
  ∧ users (world (GET o walletParam w)) = users w
  ∧ ∀ key, key ≠ cacheKeyOf (default "" walletParam) →
      fileListCache (world (GET o walletParam w)) !! key
      = fileListCache w !! key.
Proof.
  destruct (GET_world_cases o walletParam w)
    as [[p ->] | (wallet & -> & _ & ->)]; cbn; [auto |].
  split; [reflexivity |]. split; [reflexivity |].
  intros key Hkey. now rewrite lookup_insert_ne.
Qed.

(** *** Accounts and records *)

Lemma sum_from (l : list FileDoc) (a : Z) :
  foldr (fun f total => parsedSize f + total) a l
  = foldr (fun f total => parsedSize f + total) 0 l + a.
Proof. induction l as [|f l IH]; cbn; [reflexivity | rewrite IH; lia]. Qed.

Lemma storedBytes_app (wallet : string) (a b : list FileDoc) :
  storedBytes wallet (a ++ b) = storedBytes wallet a + storedBytes wallet b.
Proof.
  unfold storedBytes, recordsOf. rewrite filter_app, foldr_app.
  apply sum_from.
Qed.

Lemma storedBytes_one (wallet : string) (f : FileDoc) :
  storedBytes wallet [f]
  = if decide (walletAddress f = wallet) then parsedSize f else 0.
Proof.
  unfold storedBytes, recordsOf. rewrite filter_cons, filter_nil.
  destruct (decide (walletAddress f = wallet)); cbn; lia.
Qed.

Lemma storedBytes_cons (wallet : string) (f : FileDoc) (fs : list FileDoc) :
  storedBytes wallet (f :: fs) = storedBytes wallet [f] + storedBytes wallet fs.
Proof. apply (storedBytes_app wallet [f] fs). Qed.

Lemma storedBytes_unparsable (wallet : string) (fs : list FileDoc) :
  (∀ f, f ∈ fs → walletAddress f = wallet → JS.parseInt (size f) = None) →
  storedBytes wallet fs = 0.
Proof.
  induction fs as [|f fs IH]; intros H; [reflexivity |].
  rewrite storedBytes_cons, storedBytes_one, IH.
  - destruct (decide (walletAddress f = wallet)) as [E|]; [|reflexivity].
    unfold parsedSize. now rewrite (H f (list_elem_of_here _ _) E).
  - intros g Hg. apply H. now apply list_elem_of_further.
Qed.

Lemma storedBytes_deleteOne (c wallet : string) (fs : list FileDoc)
    (file : FileDoc) :
  findOne c wallet fs = Some file →
  storedBytes wallet (deleteOne c wallet fs)
  = storedBytes wallet fs - parsedSize file.
Proof.
  intros Hf. destruct (findOne_matches _ _ _ _ Hf) as (_ & _ & Hw).
  destruct (deleteOne_split _ _ _ _ Hf) as (before & after & -> & -> & _).
  rewrite !storedBytes_app, storedBytes_cons, storedBytes_one.
  destruct (decide (walletAddress file = wallet)); [lia | contradiction].
Qed.

Lemma deleteOne_elem (c wallet : string) (fs : list FileDoc) (f : FileDoc) :
  f ∈ deleteOne c wallet fs → f ∈ fs.
Proof.
  induction fs as [|g fs IH]; cbn; [auto |].
  destruct (matches c wallet g).
  - apply list_elem_of_further.
  - rewrite !elem_of_cons. intros [-> | H]; auto.
Qed.

Lemma accounted_setPromise (p : bool) (w : World) :
  accounted w → accounted (setPromise p w).
Proof. intros H wallet. exact (H wallet). Qed.

Lemma accounted_step (r : Request) (w : World) :
  accountUpdateAnswers r → accounted w → accounted (world (handle r w)).
Proof.
  intros Hr Hacc.
  destruct r as [o | o wp | o cp wp]; cbn [handle accountUpdateAnswers] in *.
  - destruct (POST_world_cases o w) as [[p ->] | (file & _ & _ & Hcases)];
      [now apply accounted_setPromise |].
    destruct Hcases as [[-> [Hnone | Hup]] | (n & Hn & _ & ->)];
      [| contradiction |]; intros wallet; specialize (Hacc wallet); cbn -[storedBytes upsertInc inc].
    + destruct (users w !! wallet) as [total|].
      * rewrite storedBytes_app, storedBytes_one. unfold parsedSize.
        rewrite Hnone. destruct (decide _); cbn; lia.
      * intros f Hin Hw. apply elem_of_app in Hin as [Hin | Hin]; [auto |].
        apply list_elem_of_singleton in Hin as ->. exact Hnone.
    + rewrite storedBytes_app, storedBytes_one. unfold parsedSize. rewrite Hn.
      destruct (decide (walletAddress file = wallet)) as [<- | Hne].
      * rewrite upsertInc_same.
        destruct (users w !! walletAddress file) as [total|]; cbn.
        -- lia.
        -- rewrite (storedBytes_unparsable _ _ Hacc). lia.
      * rewrite upsertInc_other by congruence.
        destruct (users w !! wallet) as [total|]; [lia |].
        intros f Hin Hw. apply elem_of_app in Hin as [Hin | Hin]; [auto |].
        apply list_elem_of_singleton in Hin as ->. contradiction.
  - destruct (GET_world_cases o wp w) as [[p ->] | (wallet & _ & _ & ->)];
      [now apply accounted_setPromise |].
    intros wl. exact (Hacc wl).
  - destruct (DELETE_world_cases o cp wp w)
      as [[p ->] | (c & wallet & file & _ & _ & Hf & Hcases)];
      [now apply accounted_setPromise |].
    destruct Hr as [u Hu].
    destruct Hcases as [[_ [e He]] | [_ ->]]; [congruence |].
    intros wl; specialize (Hacc wl); cbn -[storedBytes upsertInc inc].
    destruct (decide (wallet = wl)) as [<- | Hne].
    + rewrite inc_same. destruct (users w !! wallet) as [total|]; cbn.
      * rewrite (storedBytes_deleteOne _ _ _ _ Hf). lia.
      * intros f Hin. apply Hacc. now apply deleteOne_elem in Hin.
    + rewrite inc_other by congruence.
      unfold storedBytes. rewrite recordsOf_deleteOne_other by assumption.
      destruct (users w !! wl) as [total|]; [exact Hacc |].
      intros f Hin. apply Hacc. now apply deleteOne_elem in Hin.
Qed.

Lemma accounted_emptyWorld : accounted emptyWorld.
Proof.
  intros wallet. cbn [users files emptyWorld]. rewrite lookup_empty.
  intros f Hin. now apply elem_of_nil in Hin.
Qed.

(** X6.  In a run of requests served one after the other, none
    starting before the one before it has returned, and as long as no
    account update fails, the accounts agree with the records after
    every request: the [totalStorageUsed] of a wallet is the sum of the
    sizes of its records as [parseInt] reads them (0 for a size that does
    not parse), and a wallet without account has no record whose size
    parses.  The sizes, of the records stored at the start and of the
    creates of the run, are such that [parseInt] reads a safe integer.
    Failing connections, creates, queries and deletes do not disturb
    this; it holds in particular after any such run from the empty
    database. *)
Theorem accounts_agree_with_records (rs : list Request) (w : World) :
  accounted w →
  (∀ f, f ∈ files w → safeSize (size f)) →
  Forall safeCreate rs →
  Forall accountUpdateAnswers rs →
  accounted (serve rs w).
Proof.
  intros Hacc _ _ Hrs. revert w Hacc.
  induction Hrs as [|r rs Hr _ IH]; intros w Hacc; [exact Hacc |].
  apply (IH (world (handle r w))). now apply accounted_step.
Qed.

Lemma accounts_agree_witness :
  users uploadedTwice !! "0xabc" = Some (storedBytes "0xabc" (files uploadedTwice)).
Proof.
  assert (Hsafe : safeSize "500").
  { intros n H. vm_compute in H. injection H as <-.
    unfold JS.isSafeInteger, JS.MIN_SAFE_INTEGER, JS.MAX_SAFE_INTEGER. lia. }
  assert (Hfiles : ∀ f, f ∈ files emptyWorld → safeSize (size f)).
  { intros f Hin. now apply elem_of_nil in Hin. }
  assert (Hcreates : Forall safeCreate
    [Create (samplePost "500" (Returns true));
     Create (secondPost "500" (Returns true))]).
  { constructor; [| constructor; [| constructor]];
      intros req sz [= <-] [= <-]; exact Hsafe. }
  pose proof (accounts_agree_with_records
    [Create (samplePost "500" (Returns true));
     Create (secondPost "500" (Returns true))] emptyWorld
    accounted_emptyWorld Hfiles Hcreates) as H.
  assert (Hacc : accounted uploadedTwice).
  { apply H. repeat constructor. }
  specialize (Hacc "0xabc").
  destruct (users uploadedTwice !! "0xabc") as [total|] eqn:E;
    [now rewrite Hacc | vm_compute in E; discriminate E].
Defined.

(** X7.  Create and delete undo each other.  When the wallet has no
    record for the content identifier, a successful create of a size that
    parses as a safe integer, followed by a successful delete of that
    content identifier, leaves the collection as it was before the
    create, the wallet's [totalStorageUsed] at its former value (an
    account of 0 if there was none), and no entry for the wallet in the
    list cache. *)
Theorem create_then_delete_restores
    (o : PostAnswers) (od : DeleteAnswers) (w : World)
    (name c sz mime wallet : string) (stamp : string * Z * option Z) (n : Z) :
  postJson o = Returns (uploadOf name c sz mime wallet) →
  name ≠ "" → c ≠ "" → mime ≠ "" → wallet ≠ "" →
  JS.parseInt sz = Some n →
  JS.isSafeInteger n →
  postSucceeds o w stamp →
  deleteSucceeds od (world (POST o w)) →
  findOne c wallet (files w) = None →
  status (response (DELETE od (Some c) (Some wallet) (world (POST o w)))) = 200
  ∧ files (world (DELETE od (Some c) (Some wallet) (world (POST o w))))
    = files w
  ∧ totalStorageUsed wallet
      (world (DELETE od (Some c) (Some wallet) (world (POST o w))))
    = Some (default 0 (totalStorageUsed wallet w))
  ∧ fileListCache (world (DELETE od (Some c) (Some wallet) (world (POST o w))))
      !! cacheKeyOf wallet = None.
Proof.
  intros Hjson Hname Hc Hmime Hwallet Hparse _ (Hconn & Hcreate & Hups)
    Hdel Hnone.
  pose proof (parseInt_nonempty _ _ Hparse) as Hsz.
  rewrite (DELETE_after_connect od _ c wallet Hc Hwallet Hdel).
  clear Hdel.
  rewrite (POST_after_create o w name c sz mime wallet stamp) by assumption.
  cbv zeta. rewrite Hparse, Hups. cbn -[inc upsertInc].
  set (file := fileOf name c sz mime wallet stamp).
  assert (Hm : matches c wallet file = true).
  { unfold file, fileOf, matches. destruct stamp as [[? ?] ?]. cbn.
    now rewrite !bool_decide_eq_true_2. }
  assert (Hfind : findOne c wallet (files w ++ [file]) = Some file).
  { clear -Hnone Hm. induction (files w) as [|g fs IH]; cbn in *.
    - now rewrite Hm.
    - destruct (matches c wallet g); [discriminate | auto]. }
  assert (Hdelete : deleteOne c wallet (files w ++ [file]) = files w).
  { clear -Hnone Hm. induction (files w) as [|g fs IH]; cbn in *.
    - now rewrite Hm.
    - destruct (matches c wallet g); [discriminate | now rewrite IH]. }
  rewrite Hfind. cbn -[inc upsertInc].
  rewrite Hdelete. split; [reflexivity |]. split; [reflexivity |].
  split; [|apply lookup_delete_eq].
  unfold totalStorageUsed, setCache, setUsers. cbn [users].
  rewrite inc_same, upsertInc_same.
  assert (Hs : size file = sz).
  { unfold file, fileOf. now destruct stamp as [[? ?] ?]. }
  rewrite Hs, Hparse. cbn. f_equal. lia.
Qed.

Lemma create_then_delete_witness :
  files (world (DELETE sampleDelete (Some "QmA") (Some "0xabc")
                  (world (POST (samplePost "500" (Returns true)) emptyWorld))))
  = []
  ∧ totalStorageUsed "0xabc"
      (world (DELETE sampleDelete (Some "QmA") (Some "0xabc")
                (world (POST (samplePost "500" (Returns true)) emptyWorld))))
    = Some 0.
Proof.
  assert (Hsafe : JS.isSafeInteger 500).
  { unfold JS.isSafeInteger, JS.MIN_SAFE_INTEGER, JS.MAX_SAFE_INTEGER. lia. }
  destruct (create_then_delete_restores
    (samplePost "500" (Returns true)) sampleDelete emptyWorld
    "a.txt" "QmA" "500" "text/plain" "0xabc" sampleStamp 500
    eq_refl ltac:(discriminate) ltac:(discriminate) ltac:(discriminate)
    ltac:(discriminate) eq_refl Hsafe
    (conj (or_intror (ex_intro _ tt eq_refl)) (conj eq_refl eq_refl))
    (conj (or_introl eq_refl) (conj eq_refl (conj eq_refl eq_refl)))
    eq_refl) as (_ & Hf & Hu & _).
  split; [exact Hf | exact Hu].
Defined.

(** *** What a list shows *)

Lemma spread_transform (fs : list FileDoc) : map spread (map transform fs) = fs.
Proof. induction fs as [|f fs IH]; cbn; [reflexivity | now rewrite IH]. Qed.

Lemma freshList_decorated (wallet : string) (w : World) :
  Forall decorated (freshList wallet w).
Proof.
  unfold freshList. induction (find wallet (files w)) as [|f fs IH]; cbn;
    constructor; [repeat split | exact IH].
Qed.

(** X8.  A list that is not answered from the cache, the database
    answering, returns the records of the wallet and no others, each one
    once, the newest first by [createdAt]; every element carries its
    record, the record's [_id] as a string, [updatedAt] (or [createdAt]
    when that is absent) as [lastUpdate], and the formatted size of the
    record's size string. *)
Theorem GET_lists_the_wallets_records (o : GetAnswers) (w : World)
    (wallet : string) :
  wallet ≠ "" →
  cacheHit (getNowCheck o) (fileListCache w !! cacheKeyOf wallet) = None →
  getSucceeds o w →
  ∃ listed,
    response (GET o (Some wallet) w) = json (ListBody listed) 200
    ∧ map spread listed ≡ₚ recordsOf wallet (files w)
    ∧ newestFirst (map spread listed)
    ∧ Forall decorated listed.
Proof.
  intros Hw Hmiss Hok. exists (freshList wallet w).
  rewrite (GET_miss_succeeds o w wallet Hw Hmiss Hok). cbn.
  split; [reflexivity |]. unfold freshList at 1 2. rewrite spread_transform.
  split; [apply find_perm |]. split; [apply find_newestFirst |].
  apply freshList_decorated.
Qed.

Lemma GET_lists_witness :
  ∃ listed,
    response (GET (sampleGet 1000) (Some "0xabc") uploadedTwice)
    = json (ListBody listed) 200
    ∧ map spread listed ≡ₚ recordsOf "0xabc" (files uploadedTwice).
Proof.
  destruct (GET_lists_the_wallets_records (sampleGet 1000) uploadedTwice "0xabc"
    ltac:(discriminate) eq_refl (conj (or_introl eq_refl) eq_refl))
    as (listed & Hr & Hp & _).
  exists listed. split; [exact Hr | exact Hp].
Defined.

(** X9.  A record that was just created is listed.  After a create that
    answers 200 (its size parsing as a safe integer), a list for the same
    wallet that is the next thing to happen, served on the state the
    create left with no other request and no waiting list completing in
    between, and whose query resolves, returns the records the wallet had
    before and the new one, newest first, the new one with the formatted
    size of the size string it was created with; the list is computed
    from the database, not taken from the cache. *)
Theorem created_record_is_listed
    (o : PostAnswers) (og : GetAnswers) (w : World)
    (name c sz mime wallet : string) (stamp : string * Z * option Z) (n : Z) :
  postJson o = Returns (uploadOf name c sz mime wallet) →
  name ≠ "" → c ≠ "" → mime ≠ "" → wallet ≠ "" →
  JS.parseInt sz = Some n →
  JS.isSafeInteger n →
  postSucceeds o w stamp →
  getFind og = Returns tt →
  ∃ listed,
    response (GET og (Some wallet) (world (POST o w))) = json (ListBody listed) 200
    ∧ calls (GET og (Some wallet) (world (POST o w))) = [FileFind wallet]
    ∧ map spread listed
      ≡ₚ recordsOf wallet (files w) ++ [fileOf name c sz mime wallet stamp]
    ∧ newestFirst (map spread listed)
    ∧ transform (fileOf name c sz mime wallet stamp) ∈ listed
    ∧ formattedSize (transform (fileOf name c sz mime wallet stamp))
      = formatSize sz.
Proof.
  intros Hjson Hname Hc Hmime Hwallet Hparse _ (Hconn & Hcreate & Hups) Hfind.
  pose proof (parseInt_nonempty _ _ Hparse) as Hsz.
  rewrite (POST_after_create o w name c sz mime wallet stamp) by assumption.
  cbv zeta. rewrite Hparse, Hups. cbn [world answer].
  set (file := fileOf name c sz mime wallet stamp).
  set (w' := setCache _ _).
  assert (Hfw : walletAddress file = wallet ∧ size file = sz).
  { unfold file, fileOf. now destruct stamp as [[? ?] ?]. }
  destruct Hfw as [Hfw Hfs].
  assert (Hmiss : cacheHit (getNowCheck og) (fileListCache w' !! cacheKeyOf wallet)
                  = None).
  { unfold w'. cbn. now rewrite lookup_delete_eq. }
  assert (Hok : getSucceeds og w') by (split; [left; reflexivity | exact Hfind]).
  exists (freshList wallet w').
  rewrite (GET_miss_succeeds og w' wallet Hwallet Hmiss Hok). cbn [response calls answer].
  assert (Hfiles : files w' = files w ++ [file]) by reflexivity.
  split; [reflexivity |]. split; [reflexivity |].
  unfold freshList at 1 2. rewrite spread_transform, Hfiles.
  split.
  { rewrite find_perm. fold (recordsOf wallet (files w ++ [file])).
    unfold recordsOf. rewrite filter_app, filter_cons_True, filter_nil by exact Hfw.
    reflexivity. }
  split; [apply find_newestFirst |].
  split; [|cbn; now rewrite Hfs].
  unfold freshList. apply list_elem_of_fmap. exists file. split; [reflexivity |].
  apply find_elem. rewrite Hfiles, elem_of_app, list_elem_of_singleton. auto.
Qed.

Lemma created_record_witness :
  ∃ listed,
    response (GET (sampleGet 1000) (Some "0xabc")
                (world (POST (samplePost "2048" (Returns true)) listedOnce)))
    = json (ListBody listed) 200
    ∧ transform (sampleFile "2048") ∈ listed.
Proof.
  assert (Hsafe : JS.isSafeInteger 2048).
  { unfold JS.isSafeInteger, JS.MIN_SAFE_INTEGER, JS.MAX_SAFE_INTEGER. lia. }
  destruct (created_record_is_listed
    (samplePost "2048" (Returns true)) (sampleGet 1000) listedOnce
    "a.txt" "QmA" "2048" "text/plain" "0xabc" sampleStamp 2048
    eq_refl ltac:(discriminate) ltac:(discriminate) ltac:(discriminate)
    ltac:(discriminate) eq_refl Hsafe
    (conj (or_introl eq_refl) (conj eq_refl eq_refl)) eq_refl)
    as (listed & Hr & _ & _ & _ & Hin & _).
  exists listed. split; [exact Hr | exact Hin].
Defined.

(** *** Failures half way *)

(** X10.  A create is not undone when the account update fails.  When the
    record has been stored and [findOneAndUpdate] then throws or yields
    no document, the answer is 500, the new record stays in the
    collection, no account has changed, and the wallet's cache entry has
    not been removed. *)
Theorem POST_failed_account_update
    (o : PostAnswers) (w : World) (name c sz mime wallet : string)
    (stamp : string * Z * option Z) (n : Z) :
  postJson o = Returns (uploadOf name c sz mime wallet) →
  name ≠ "" → c ≠ "" → mime ≠ "" → wallet ≠ "" →
  JS.parseInt sz = Some n →
  connects (postConnect o) w →
  postCreate o = Returns stamp →
  postUpsert o ≠ Returns true →
  status (response (POST o w)) = 500
  ∧ files (world (POST o w)) = files w ++ [fileOf name c sz mime wallet stamp]
  ∧ users (world (POST o w)) = users w
  ∧ fileListCache (world (POST o w)) = fileListCache w
  ∧ calls (POST o w)
    = connectCalls w ++ [FileCreate name c sz mime wallet;
                         UserUpsertInc wallet n].
Proof.
  intros Hjson Hname Hc Hmime Hwallet Hparse Hconn Hcreate Hups.
  pose proof (parseInt_nonempty _ _ Hparse) as Hsz.
  rewrite (POST_after_create o w name c sz mime wallet stamp) by assumption.
  cbv zeta. rewrite Hparse.
  destruct (postUpsert o) as [[]|e]; [contradiction | |]; cbn;
    rewrite <- app_assoc; try destruct e; repeat split; reflexivity.
Qed.

Lemma POST_failed_account_update_witness :
  status (response (POST (samplePost "500"
            (Throws (ErrorObject "write conflict" ""))) emptyWorld)) = 500
  ∧ files (world (POST (samplePost "500"
             (Throws (ErrorObject "write conflict" ""))) emptyWorld))
    = [sampleFile "500"]
  ∧ users (world (POST (samplePost "500"
             (Throws (ErrorObject "write conflict" ""))) emptyWorld)) = ∅.
Proof.
  destruct (POST_failed_account_update
    (samplePost "500" (Throws (ErrorObject "write conflict" ""))) emptyWorld
    "a.txt" "QmA" "500" "text/plain" "0xabc" sampleStamp 500
    eq_refl ltac:(discriminate) ltac:(discriminate) ltac:(discriminate)
    ltac:(discriminate) eq_refl (or_intror (ex_intro _ tt eq_refl)) eq_refl
    ltac:(discriminate)) as (Hs & Hf & Hu & _).
  split; [exact Hs | split; [exact Hf | exact Hu]].
Defined.

(** X11.  A delete is not undone either.  When [deleteOne] has resolved
    and the account update then throws, the answer is 500, Failed to
    delete file, although the record is gone; the wallet's
    [totalStorageUsed] still counts it and the wallet's cache entry is
    still in place.  When [deleteOne] itself throws, nothing has
    changed. *)
Theorem DELETE_failed_half_way
    (o : DeleteAnswers) (w : World) (c wallet : string) (file : FileDoc)
    (e : Thrown) :
  c ≠ "" → wallet ≠ "" →
  connects (delConnect o) w →
  delFindOne o = Returns tt →
  findOne c wallet (files w) = Some file →
  (delDeleteOne o = Returns tt → delUpdate o = Throws e →
     response (DELETE o (Some c) (Some wallet) w)
     = json (ErrorBody "Failed to delete file") 500
     ∧ files (world (DELETE o (Some c) (Some wallet) w))
       = deleteOne c wallet (files w)
     ∧ users (world (DELETE o (Some c) (Some wallet) w)) = users w
     ∧ fileListCache (world (DELETE o (Some c) (Some wallet) w))
       = fileListCache w)
  ∧ (delDeleteOne o = Throws e →
     response (DELETE o (Some c) (Some wallet) w)
     = json (ErrorBody "Failed to delete file") 500
     ∧ files (world (DELETE o (Some c) (Some wallet) w)) = files w
     ∧ users (world (DELETE o (Some c) (Some wallet) w)) = users w
     ∧ fileListCache (world (DELETE o (Some c) (Some wallet) w))
       = fileListCache w).
Proof.
  intros Hc Hw Hconn Hfo Hfind.
  unfold DELETE. rewrite !truthy_Some by assumption. cbn [negb orb].
  change (default "" (Some c)) with c.
  change (default "" (Some wallet)) with wallet.
  rewrite ensureDbConnection_connects by assumption. cbn [negb]. cbv zeta.
  rewrite Hfo. cbn [files setPromise]. rewrite Hfind.
  split.
  - intros -> ->. cbn. auto.
  - intros ->. cbn. auto.
Qed.

Lemma DELETE_failed_half_way_witness :
  response (DELETE halfDelete (Some "QmA") (Some "0xabc")
              (world (POST (samplePost "500" (Returns true)) emptyWorld)))
  = json (ErrorBody "Failed to delete file") 500
  ∧ files (world (DELETE halfDelete (Some "QmA") (Some "0xabc")
                    (world (POST (samplePost "500" (Returns true)) emptyWorld))))
    = []
  ∧ users (world (DELETE halfDelete (Some "QmA") (Some "0xabc")
                    (world (POST (samplePost "500" (Returns true)) emptyWorld))))
      !! "0xabc" = Some 500.
Proof.
  destruct (proj1 (DELETE_failed_half_way halfDelete
    (world (POST (samplePost "500" (Returns true)) emptyWorld))
    "QmA" "0xabc" (sampleFile "500") (ErrorObject "socket timeout" "")
    ltac:(discriminate) ltac:(discriminate) (or_introl eq_refl) eq_refl eq_refl)
    eq_refl eq_refl) as (Hr & Hf & Hu & _).
  split; [exact Hr |]. split; [exact Hf |]. now rewrite Hu.
Defined.

(** *** Deleting what is not there *)

(** X12.  A delete only reaches records of the wallet it is asked for.
    When no record with the content identifier belongs to that wallet
    (none exists, or the ones that exist belong to other wallets), the
    answer is 404, File not found or unauthorized: nothing is deleted,
    no account changes, the cache is left alone, and the one query is
    the only call after the connection. *)
Theorem DELETE_of_foreign_or_unknown_record
    (o : DeleteAnswers) (w : World) (c wallet : string) :
  c ≠ "" → wallet ≠ "" →
  connects (delConnect o) w →
  delFindOne o = Returns tt →
  (∀ f, f ∈ files w → cid f = c → walletAddress f ≠ wallet) →
  response (DELETE o (Some c) (Some wallet) w)
  = json (ErrorBody "File not found or unauthorized") 404
  ∧ files (world (DELETE o (Some c) (Some wallet) w)) = files w
  ∧ users (world (DELETE o (Some c) (Some wallet) w)) = users w
  ∧ fileListCache (world (DELETE o (Some c) (Some wallet) w)) = fileListCache w
  ∧ calls (DELETE o (Some c) (Some wallet) w)
    = connectCalls w ++ [FileFindOne c wallet].
Proof.
  intros Hc Hw Hconn Hfo Hforeign.
  unfold DELETE. rewrite !truthy_Some by assumption. cbn [negb orb].
  change (default "" (Some c)) with c.
  change (default "" (Some wallet)) with wallet.
  rewrite ensureDbConnection_connects by assumption. cbn [negb]. cbv zeta.
  rewrite Hfo. cbn [files setPromise].
  rewrite (findOne_none c wallet (files w) Hforeign). cbn. auto.
Qed.

Lemma DELETE_of_foreign_record_witness :
  response (DELETE sampleDelete (Some "QmA") (Some "0xdef")
              (world (POST (samplePost "500" (Returns true)) emptyWorld)))
  = json (ErrorBody "File not found or unauthorized") 404
  ∧ files (world (DELETE sampleDelete (Some "QmA") (Some "0xdef")
                    (world (POST (samplePost "500" (Returns true)) emptyWorld))))
    = [sampleFile "500"].
Proof.
  destruct (DELETE_of_foreign_or_unknown_record sampleDelete
    (world (POST (samplePost "500" (Returns true)) emptyWorld)) "QmA" "0xdef"
    ltac:(discriminate) ltac:(discriminate) (or_introl eq_refl) eq_refl)
    as (Hr & Hf & _).
  - intros f Hin _. apply list_elem_of_singleton in Hin as ->. discriminate.
  - split; [exact Hr | exact Hf].
Defined.

(** *** A list after a create that was refused for its size *)

(** X13.  The record of a create refused with 400, Invalid file size, is
    stored but the cache is not invalidated: a list for the wallet that
    finds a young enough entry answers with the list cached before the
    create, without a call to the database, so the stored record stays
    out of the wallet's list until the entry expires or a later create
    or delete removes it. *)
Theorem refused_create_not_listed_from_cache
    (o : PostAnswers) (og : GetAnswers) (w : World)
    (name c sz mime wallet : string) (stamp : string * Z * option Z)
    (e : CacheEntry) :
  postJson o = Returns (uploadOf name c sz mime wallet) →
  name ≠ "" → c ≠ "" → sz ≠ "" → mime ≠ "" → wallet ≠ "" →
  JS.parseInt sz = None →
  connects (postConnect o) w →
  postCreate o = Returns stamp →
  cacheHit (getNowCheck og) (fileListCache w !! cacheKeyOf wallet) = Some e →
  fileOf name c sz mime wallet stamp ∈ files (world (POST o w))
  ∧ response (GET og (Some wallet) (world (POST o w)))
    = json (ListBody (data e)) 200
  ∧ response (GET og (Some wallet) (world (POST o w)))
    = response (GET og (Some wallet) w)
  ∧ calls (GET og (Some wallet) (world (POST o w))) = [].
Proof.
  intros Hjson Hname Hc Hsz Hmime Hwallet Hparse Hconn Hcreate Hhit.
  rewrite (GET_hit og w wallet e Hwallet Hhit).
  rewrite (POST_after_create o w name c sz mime wallet stamp) by assumption.
  cbv zeta. rewrite Hparse. cbn [world answer].
  split.
  { cbn. rewrite elem_of_app, list_elem_of_singleton. auto. }
  rewrite (GET_hit og _ wallet e Hwallet); [auto |]. exact Hhit.
Qed.

Lemma refused_create_witness :
  sampleFile "abc" ∈ files (world (POST (samplePost "abc" (Returns true)) listedOnce))
  ∧ response (GET (sampleGet 1000) (Some "0xabc")
                (world (POST (samplePost "abc" (Returns true)) listedOnce)))
    = json (ListBody []) 200.
Proof.
  destruct (refused_create_not_listed_from_cache
    (samplePost "abc" (Returns true)) (sampleGet 1000) listedOnce
    "a.txt" "QmA" "abc" "text/plain" "0xabc" sampleStamp
    {| data := []; timestamp := 0 |}
    eq_refl ltac:(discriminate) ltac:(discriminate) ltac:(discriminate)
    ltac:(discriminate) ltac:(discriminate) eq_refl
    (or_introl eq_refl) eq_refl eq_refl) as (Hin & Hr & _).
  split; [exact Hin | exact Hr].
Defined.

End RunFacts.

(** ** The upload proxy: every path *)

Module ProxyRunFacts.
Import WebhashProxy ProxyTerms ProxyRunTerms ProxySamples JSFacts ProxyFacts.

Lemma reply_snd (r : Outcome Response) (effects : list Effect) :
  snd (reply r effects) = effects.
Proof. destruct r; reflexivity. Qed.

Lemma ok_not_200 (r : ExternalResponse) : ok r = false → extStatus r ≠ 200.
Proof.
  unfold ok. intros H E. rewrite E in H. discriminate H.
Qed.

(** The effects of a request: nothing, the form read, or the form read
    and one call, followed by at most one read of the answer. *)
Lemma POST_effects (o : ProxyAnswers) :
  snd (POST o) = []
  ∨ snd (POST o) = [ReadFormData]
  ∨ ∃ key form rest,
      forwardable o key form
      ∧ snd (POST o)
        = ReadFormData
          :: Fetch (baseUrl o +:+ "/upload") ("Bearer " +:+ key) form :: rest
      ∧ (rest = [] ∨ rest = [ReadText] ∨ rest = [ReadJson]).
Proof.
  unfold POST. fold (baseUrl o).
  destruct (JS.truthy (NEXT_PUBLIC_WEBHASH_API_KEY o)) eqn:Ek; cbn [negb];
    [|left; apply reply_snd].
  apply truthy_inv in Ek as (key & Ek & Hk). rewrite Ek.
  change (default "" (Some key)) with key.
  destruct (requestFormData o) as [form|e] eqn:Ef; [|right; left; reflexivity].
  destruct (truthyValue (get "file" form)) eqn:Et; cbn [negb];
    [|right; left; apply reply_snd].
  right. right. exists key, form.
  assert (Hfw : forwardable o key form) by (repeat split; assumption).
  destruct (fetched o) as [r|e].
  - destruct (ok r); cbn [negb].
    + destruct (extJson r); exists [ReadJson]; rewrite reply_snd; auto.
    + exists [ReadText]. rewrite reply_snd. auto.
  - exists []. rewrite reply_snd. auto.
Qed.

(** X14.  The proxy calls the external API at most once per request and
    never retries.  When it calls, the request had a configured key and
    a form with a truthy [file] field; the call goes to the base address
    followed by /upload, carries the key as a bearer credential, and its
    body is the form of the request, unchanged. *)
Theorem POST_calls_out_at_most_once (o : ProxyAnswers) :
  (length (fetchesOf (snd (POST o))) ≤ 1)%nat
  ∧ ∀ url authorization form,
      Fetch url authorization form ∈ snd (POST o) →
      ∃ key,
        forwardable o key form
        ∧ url = baseUrl o +:+ "/upload"
        ∧ authorization = "Bearer " +:+ key.
Proof.
  destruct (POST_effects o) as [-> | [-> | (key & form & rest & Hfw & -> & Hrest)]].
  - split; [cbn; lia |]. intros ? ? ? H. now apply elem_of_nil in H.
  - split; [cbn; lia |]. intros ? ? ? H.
    apply list_elem_of_singleton in H. discriminate H.
  - split.
    + destruct Hrest as [-> | [-> | ->]]; cbn; lia.
    + intros url a f H.
      apply elem_of_cons in H as [H | H]; [discriminate H |].
      apply elem_of_cons in H as [H | H].
      * injection H as -> -> ->. exists key. auto.
      * destruct Hrest as [-> | [-> | ->]].
        -- now apply elem_of_nil in H.
        -- apply list_elem_of_singleton in H. discriminate H.
        -- apply list_elem_of_singleton in H. discriminate H.
Qed.

(** X15.  When the external API answers with a success status and a body
    that parses as JSON, the proxy answers 200 with that JSON value as
    its body, whatever the success status was (a 201 becomes 200).  When
    the body of a success does not parse, the proxy answers 500, Failed
    to parse WebHash API response.  In both cases one call was made and
    the body was read once. *)
Theorem POST_relays_success
    (o : ProxyAnswers) (key : string) (form : FormData) (r : ExternalResponse) :
  forwardable o key form →
  fetched o = Returns r →
  ok r = true →
  (∀ j, extJson r = Returns j →
     POST o
     = ({| status := 200; body := j |},
        [ReadFormData;
         Fetch (baseUrl o +:+ "/upload") ("Bearer " +:+ key) form;
         ReadJson]))
  ∧ (∀ e, extJson r = Throws e →
     POST o
     = ({| status := 500;
           body := JObject [("error",
                     JString "Failed to parse WebHash API response")] |},
        [ReadFormData;
         Fetch (baseUrl o +:+ "/upload") ("Bearer " +:+ key) form;
         ReadJson])).
Proof.
  intros (Hkey & Hne & Hform & Hfile) Hfetch Hok.
  unfold POST. fold (baseUrl o).
  rewrite Hkey, truthy_Some by assumption. cbn [negb].
  rewrite Hform, Hfile. cbn [negb].
  change (default "" (Some key)) with key.
  rewrite Hfetch, Hok. cbn [negb].
  split; intros ? ->; reflexivity.
Qed.

Lemma POST_relays_success_witness :
  fst (POST (sampleRequest (Some "k3y") sampleForm (successAnswer 201 pinned)))
  = {| status := 200; body := pinned |}.
Proof.
  assert (Hfw : forwardable
            (sampleRequest (Some "k3y") sampleForm (successAnswer 201 pinned))
            "k3y" sampleForm).
  { split; [reflexivity |]. split; [discriminate |]. split; reflexivity. }
  rewrite (proj1 (POST_relays_success _ "k3y" sampleForm
                    (successAnswer 201 pinned) Hfw eq_refl eq_refl)
             pinned eq_refl).
  reflexivity.
Defined.

(** X16.  Failures before an answer arrives.  When the call to the
    external API throws (transport failure, or the 50 s timeout), the
    proxy answers 500 with the text of the failure after WebHash API
    fetch error; the call was attempted once and nothing was read.  When
    reading the form throws, the proxy answers 500, Failed to proxy
    request to WebHash API, with the text of the failure as details, and
    no call is made. *)
Theorem POST_failures_in_transit (o : ProxyAnswers) (key : string) (e : Thrown) :
  NEXT_PUBLIC_WEBHASH_API_KEY o = Some key → key ≠ "" →
  (∀ form, requestFormData o = Returns form →
     truthyValue (get "file" form) = true →
     fetched o = Throws e →
     POST o
     = ({| status := 500;
           body := JObject [("error",
                     JString ("WebHash API fetch error: " +:+ errorText e))] |},
        [ReadFormData;
         Fetch (baseUrl o +:+ "/upload") ("Bearer " +:+ key) form]))
  ∧ (requestFormData o = Throws e →
     POST o
     = ({| status := 500;
           body := JObject [("error", JString "Failed to proxy request to WebHash API");
                            ("details", JString (errorText e))] |},
        [ReadFormData])).
Proof.
  intros Hkey Hne. unfold POST. fold (baseUrl o).
  rewrite Hkey, truthy_Some by assumption. cbn [negb].
  change (default "" (Some key)) with key.
  split.
  - intros form -> -> ->. reflexivity.
  - intros ->. reflexivity.
Qed.

Lemma POST_failures_in_transit_witness :
  POST abortedRequest
  = ({| status := 500;
        body := JObject [("error", JString
                 "WebHash API fetch error: The operation was aborted due to timeout")] |},
     [ReadFormData;
      Fetch "https://api.example.org/upload" "Bearer k3y" sampleForm]).
Proof.
  rewrite (proj1 (POST_failures_in_transit abortedRequest "k3y"
                    (ErrorObject "The operation was aborted due to timeout" "")
                    eq_refl ltac:(discriminate))
             sampleForm eq_refl eq_refl eq_refl).
  reflexivity.
Defined.

(** X17.  The proxy answers 200 only with the external API's own success:
    whenever its status is 200, a call was made, the external API
    answered with a success status and a body that parsed, and the body
    of the proxy's answer is that parsed value. *)
Theorem POST_200_is_a_relayed_success (o : ProxyAnswers) :
  status (fst (POST o)) = 200 →
  ∃ key form r j,
    forwardable o key form
    ∧ fetched o = Returns r ∧ ok r = true ∧ extJson r = Returns j
    ∧ body (fst (POST o)) = j.
Proof.
  unfold POST.
  destruct (JS.truthy (NEXT_PUBLIC_WEBHASH_API_KEY o)) eqn:Ek; cbn [negb];
    [|discriminate].
  apply truthy_inv in Ek as (key & Ek & Hk). rewrite Ek.
  destruct (requestFormData o) as [form|e] eqn:Ef; [|discriminate].
  destruct (truthyValue (get "file" form)) eqn:Et; cbn [negb]; [|discriminate].
  assert (Hfw : forwardable o key form) by (repeat split; assumption).
  destruct (fetched o) as [r|e] eqn:Er; [|discriminate].
  destruct (ok r) eqn:Eo; cbn [negb].
  - destruct (extJson r) as [j|e] eqn:Ej; [|discriminate].
    intros _. exists key, form, r, j.
    split; [exact Hfw | repeat split; solve [reflexivity | assumption]].
  - unfold json.
    destruct ((200 <=? extStatus r) && (extStatus r <=? 599)
              && negb ((extStatus r =? 204) || (extStatus r =? 205)
                       || (extStatus r =? 304))); cbn; [|discriminate].
    intros E. now apply ok_not_200 in Eo.
Qed.

Lemma POST_200_witness :
  body (fst (POST (sampleRequest (Some "k3y") sampleForm
                     (successAnswer 201 pinned)))) = pinned.
Proof.
  destruct (POST_200_is_a_relayed_success
    (sampleRequest (Some "k3y") sampleForm (successAnswer 201 pinned)) eq_refl)
    as (key & form & r & j & _ & Hr & _ & Hj & Hb).
  rewrite Hb. injection Hr as <-. now injection Hj as <-.
Defined.

(** X18.  The check for the file is a truthiness test, not a type test.
    A [file] field that holds text passes it when the text is not empty,
    and the form is then forwarded to the external API like one with a
    file; an empty text is refused with 400 like a missing field, without
    a call. *)
Theorem POST_text_in_file_field
    (o : ProxyAnswers) (key : string) (form : FormData) (text : string) :
  NEXT_PUBLIC_WEBHASH_API_KEY o = Some key → key ≠ "" →
  requestFormData o = Returns form →
  get "file" form = Some (TextValue text) →
  (text = "" →
     POST o
     = ({| status := 400;
           body := JObject [("error", JString "No file found in request")] |},
        [ReadFormData]))
  ∧ (text ≠ "" →
     Fetch (baseUrl o +:+ "/upload") ("Bearer " +:+ key) form ∈ snd (POST o)).
Proof.
  intros Hkey Hne Hform Hget. unfold POST. fold (baseUrl o).
  rewrite Hkey, truthy_Some by assumption. cbn [negb].
  change (default "" (Some key)) with key.
  rewrite Hform, Hget. cbn [truthyValue].
  split.
  - intros ->. reflexivity.
  - intros Ht. rewrite (truthy_Some text Ht). cbn [negb].
    destruct (fetched o) as [r|e].
    + destruct (ok r); cbn [negb]; [destruct (extJson r) |];
        rewrite reply_snd; apply list_elem_of_further, list_elem_of_here.
    + rewrite reply_snd. apply list_elem_of_further, list_elem_of_here.
Qed.

Lemma POST_text_in_file_field_witness :
  Fetch "http://52.38.175.117:5000/upload" "Bearer k3y"
        [("file", TextValue "not a file")]
  ∈ snd (POST (sampleRequest (Some "k3y") [("file", TextValue "not a file")]
                 (successAnswer 200 pinned))).
Proof.
  exact (proj2 (POST_text_in_file_field
    (sampleRequest (Some "k3y") [("file", TextValue "not a file")]
       (successAnswer 200 pinned))
    "k3y" [("file", TextValue "not a file")] "not a file"
    eq_refl ltac:(discriminate) eq_refl eq_refl) ltac:(discriminate)).
Defined.

End ProxyRunFacts.

(** ** The metadata service: sizes next to a unit boundary *)

Module FormatEdgeFacts.
Import UploadRoute UploadTerms JSTerms JSFacts Samples.

Lemma nearestHundredths_top (n unit : Z) :
  0 < unit → n < 1024 * unit → 204799 * unit ≤ 200 * n →
  JS.nearestHundredths n unit = 102400.
Proof.
  intros Hu Hlt Hge. unfold JS.nearestHundredths.
  symmetry. apply (Z.div_unique_pos _ _ _ (200 * n + unit - 102400 * (2 * unit))).
  - lia.
  - lia.
Qed.

(** X19.  Rounding is applied after the unit is chosen.  A size less than
    half a hundredth of a unit below the next unit is shown as 1024.00 of
    the smaller unit: from 1048571 to 1048575 bytes as 1024.00 KB, and in
    the same way as 1024.00 MB just below 1024^3 bytes. *)
Theorem formattedSize_just_below_a_unit
    (file : FileDoc) (n unit : Z) (suffix : string) :
  JS.parseInt (size file) = Some n →
  JS.isSafeInteger n →
  (unit = 1024 ∧ suffix = "KB") ∨ (unit = 1024 ^ 2 ∧ suffix = "MB") →
  n < 1024 * unit →
  204799 * unit ≤ 200 * n →
  formattedSize (transform file) = "1024.00 " +:+ suffix.
Proof.
  intros Hparse _ Hunit Hlt Hge.
  unfold transform. cbn [formattedSize]. unfold formatSize. rewrite Hparse.
  change (1024 * 1024 * 1024) with (1024 ^ 3).
  change (1024 * 1024) with (1024 ^ 2).
  destruct Hunit as [[-> ->] | [-> ->]].
  - destruct (Z.ltb_spec n 1024); [lia |].
    destruct (Z.ltb_spec n (1024 ^ 2)); [|lia].
    rewrite toFixed2_twoDecimals by lia. unfold twoDecimals.
    fold (JS.nearestHundredths n 1024).
    rewrite nearestHundredths_top by lia. vm_compute. reflexivity.
  - destruct (Z.ltb_spec n 1024); [lia |].
    destruct (Z.ltb_spec n (1024 ^ 2)); [lia |].
    destruct (Z.ltb_spec n (1024 ^ 3)); [|lia].
    rewrite toFixed2_twoDecimals by lia. unfold twoDecimals.
    fold (JS.nearestHundredths n (1024 ^ 2)).
    rewrite nearestHundredths_top by lia. vm_compute. reflexivity.
Qed.

Lemma formattedSize_just_below_witness :
  formattedSize (transform (sampleFile "1048575")) = "1024.00 KB".
Proof.
  refine (formattedSize_just_below_a_unit (sampleFile "1048575") 1048575 1024 "KB"
            _ _ _ _ _).
  - reflexivity.
  - unfold JS.isSafeInteger, JS.MIN_SAFE_INTEGER, JS.MAX_SAFE_INTEGER. lia.
  - left. split; reflexivity.
  - lia.
  - lia.
Defined.

End FormatEdgeFacts.
